(** * image_generation: prompt validation, persistence pipeline, retry loop

    A shallow embedding of [image_generation/utils.py] and
    [image_generation/image_generator.py].

    - A Python [str] is a [string]; a character stands for the code point
      of the same number, so the model covers the strings whose code
      points lie below 256.  On those, [str.strip], [str.lower], [len] and
      [in] are as CPython computes them.
    - An exception is its class together with the text [str(e)] yields.
    - A float is the rational it stands for; the two places where the
      retry loop's arithmetic can raise, the conversion of [2 ** k] to a
      float and the conversion of a delay to nanoseconds by [time.sleep],
      raise here under the same bounds.
    - The libraries the package calls (replicate, requests, Pillow, shutil,
      time, datetime) are an [env] of oracles; what the package mutates
      (files, the log, and the trace of remote calls, sleeps and
      downloads) is a [world]
      threaded through a small state-and-exception monad. *)

From Stdlib Require Import ZArith QArith Bool List Ascii String Lia.
From stdpp Require Import base decidable option gmap strings.

Open Scope string_scope.

(* ================================================================== *)
(** ** Python strings *)

Module PyStr.

(** [str.isspace] on one character, restricted to code points below 256:
    TAB..CR, FS..US, SPACE, NEL (0x85) and NBSP (0xA0). *)
Definition isspace (c : ascii) : bool :=
  let n := N_of_ascii c in
  ((9 <=? n) && (n <=? 13) || (28 <=? n) && (n <=? 32)
   || (n =? 133) || (n =? 160))%N.

Fixpoint all_space (s : string) : bool :=
  match s with
  | EmptyString => true
  | String c s' => isspace c && all_space s'
  end.

(** [s.lstrip()] *)
Fixpoint lstrip (s : string) : string :=
  match s with
  | EmptyString => EmptyString
  | String c s' => if isspace c then lstrip s' else s
  end.

(** [s.rstrip()] *)
Fixpoint rstrip (s : string) : string :=
  match s with
  | EmptyString => EmptyString
  | String c s' => if all_space s then EmptyString else String c (rstrip s')
  end.

(** [s.strip()] *)
Definition strip (s : string) : string := rstrip (lstrip s).

(** [str.lower] on one character below 256: A-Z, and the Latin-1 capitals
    0xC0-0xDE apart from the multiplication sign 0xD7, move up by 32. *)
Definition lower_char (c : ascii) : ascii :=
  let n := N_of_ascii c in
  if ((65 <=? n) && (n <=? 90)
      || (192 <=? n) && (n <=? 222) && negb (n =? 215))%N
  then ascii_of_N (n + 32) else c.

(** [s.lower()] *)
Fixpoint lower (s : string) : string :=
  match s with
  | EmptyString => EmptyString
  | String c s' => String (lower_char c) (lower s')
  end.

(** [needle in hay] *)
Fixpoint contains (needle hay : string) : bool :=
  String.prefix needle hay
  || match hay with
     | EmptyString => false
     | String _ hay' => contains needle hay'
     end.

(** The first and the last character of a string, when it has one. *)
Definition first_char (s : string) : option ascii :=
  match s with
  | EmptyString => None
  | String c _ => Some c
  end.

Fixpoint last_char (s : string) : option ascii :=
  match s with
  | EmptyString => None
  | String c EmptyString => Some c
  | String _ s' => last_char s'
  end.

(** No whitespace at either end. *)
Definition trimmed (s : string) : Prop :=
  (forall c, first_char s = Some c -> isspace c = false) /\
  (forall c, last_char s = Some c -> isspace c = false).

End PyStr.

(* ================================================================== *)
(** ** Exceptions *)

(** The exception classes the package raises, catches or can be handed by
    the libraries it calls. *)
Inductive exn_class : Type :=
  | Exception
  | ValueError | TypeError | AttributeError
  | ArithmeticError | OverflowError
  | LookupError | IndexError
  | OSError | PermissionError | FileNotFoundError
  | UnidentifiedImageError            (* PIL *)
  | RequestException | ConnectionError | HTTPError | RequestsTimeout
                                      (* requests.exceptions *)
  | ReplicateException | ModelError | ReplicateError
                                      (* replicate.exceptions *)
  | ImageSaveError                    (* utils.py *)
  | APIError.                         (* image_generator.py *)

#[global] Instance exn_class_eq_dec : EqDecision exn_class.
Proof. solve_decision. Defined.

(** The direct base class, as declared by Python, Pillow 10.2.0,
    requests 2.31.0 and replicate 0.20.0 (the versions [setup.py] pins),
    and by the two [class ...(Exception)] statements of the package. *)
Definition base_class (c : exn_class) : option exn_class :=
  match c with
  | Exception => None
  | ValueError | TypeError | AttributeError | ArithmeticError | LookupError
  | OSError | ReplicateException | ImageSaveError | APIError => Some Exception
  | OverflowError => Some ArithmeticError
  | IndexError => Some LookupError
  | PermissionError | FileNotFoundError | UnidentifiedImageError
  | RequestException => Some OSError
  | ConnectionError | HTTPError | RequestsTimeout => Some RequestException
  | ModelError | ReplicateError => Some ReplicateException
  end.

Fixpoint subclass_upto (fuel : nat) (c d : exn_class) : bool :=
  bool_decide (c = d)
  || match fuel, base_class c with
     | S fuel', Some p => subclass_upto fuel' p d
     | _, _ => false
     end.

(** [issubclass(c, d)]; no class above lies deeper than three steps below
    [Exception]. *)
Definition issubclass (c d : exn_class) : bool := subclass_upto 3 c d.

(** A raised exception: its class and [str(e)]. *)
Record exn : Type := mk_exn { exn_cls : exn_class; exn_str : string }.

Definition isinstance (e : exn) (c : exn_class) : bool :=
  issubclass (exn_cls e) c.

(** The outcome of a call: a value, or a raised exception. *)
Inductive result (A : Type) : Type :=
  | Ok (a : A)
  | Raise (e : exn).
Arguments Ok {A} a.
Arguments Raise {A} e.

(* ================================================================== *)
(** ** Python values handed to [validate_prompt] *)

#[warnings="-register-all"]
Inductive pyval : Type :=
  | PyNone
  | PyBool (b : bool)
  | PyInt (n : Z)
  | PyStr (s : string)
  | PyBytes (b : list Byte.byte)
  | PyList (l : list pyval).

(** [bool(v)] *)
Definition truthy (v : pyval) : bool :=
  match v with
  | PyNone => false
  | PyBool b => b
  | PyInt n => negb (n =? 0)%Z
  | PyStr s => negb (String.eqb s "")
  | PyBytes b => match b with [] => false | _ => true end
  | PyList l => match l with [] => false | _ => true end
  end.

(** [isinstance(v, str)] *)
Definition is_str (v : pyval) : bool :=
  match v with PyStr _ => true | _ => false end.

(* ================================================================== *)
(** ** utils.py: [validate_prompt] *)

Definition validate_prompt (prompt : pyval) : result string :=
  if negb (truthy prompt) || negb (is_str prompt) then
    Raise (mk_exn ValueError "Prompt must be a non-empty string")
  else
    match prompt with
    | PyStr s =>
        let cleaned_prompt := PyStr.strip s in
        if negb (truthy (PyStr cleaned_prompt)) then
          Raise (mk_exn ValueError "Prompt cannot be empty or just whitespace")
        else if (500 <? String.length cleaned_prompt)%nat then
          Raise (mk_exn ValueError "Prompt is too long (maximum 500 characters)")
        else Ok cleaned_prompt
    | _ =>
        (* not reached: [is_str prompt] holds in this branch *)
        Raise (mk_exn AttributeError "strip")
    end.

(* ================================================================== *)
(** ** The world the package acts on *)

Abbreviation bytes := (list Byte.byte).

Inductive level : Type := INFO | WARNING | ERROR.

(** One constructor per logging call of the package, holding the values
    its f-string interpolates. *)
Inductive log_msg : Type :=
  | FailedToCheckDiskSpace (e : string)
  | ImageValidationFailed (e : string)
  | FailedToCreateBackup (e : string)
  | CreatedBackupAt (backup_path : string)
  | SuccessfullySavedImageTo (filepath : string)
  | RetryAttempt (attempt max_retries : Z) (delay : Q)
  | SuccessfullyGenerated (attempts : Z)
  | FailedToGenerateImage (error_message : string)
  | AttemptFailed (attempt : Z) (error_message : string).

Record log_record : Type := mk_log { log_level : level; log_text : log_msg }.

(** What the package does to the outside, in the order it does it. *)
Inductive event : Type :=
  | Ran (prompt : string)          (* client.run with this prompt *)
  | Slept (delay : Q)              (* time.sleep(delay) *)
  | Fetched (url : string).        (* requests.get(url) *)

Record world : Type := mk_world {
  files : gmap string bytes;       (* regular files, by path *)
  log : list log_record;           (* oldest first *)
  trace : list event               (* oldest first *)
}.

(** The number of remote calls made so far. *)
Fixpoint count_runs (t : list event) : nat :=
  match t with
  | [] => 0
  | Ran _ :: t' => S (count_runs t')
  | _ :: t' => count_runs t'
  end.

(** A PIL image opened from a byte buffer: Pillow reads it lazily, so the
    object is the buffer it was opened from. *)
Record image : Type := mk_image { image_source : bytes }.

(** [requests.Response], as far as the package reads it. *)
Record response : Type := mk_response {
  status_code : Z;
  http_error_msg : string;         (* the text raise_for_status builds *)
  content : bytes
}.

(** What [Image.save] does at a path: it writes the encoded file, or
    raises; after a failure the path holds [residue] when that is given
    (a truncated pre-existing file) and is as before otherwise. *)
Inductive save_outcome : Type :=
  | Written (data : bytes)
  | SaveFailed (e : exn) (residue : option bytes).

(** The libraries' answers.  Each is a function of what the package hands
    the library; the two that write to the disk, [shutil.copy2] and
    [Image.save], also of the files present when they are called (a
    directory that is missing, a path that is taken, a disk that is full),
    and [client_run] of the number of earlier remote calls, so that
    successive attempts may be answered differently.

    [copy2_fault] is [None] when the copy goes through, and otherwise the
    exception raised together with what the failed copy left at the
    target: [shutil.copy2] opens the target for writing before it copies
    and sets the metadata afterwards, so the target may hold a truncated
    or a complete copy by the time it raises ([Some residue]), or be
    untouched ([None]).

    [sleep_fault] is what the operating system makes of a delay that
    [time.sleep] has accepted: [None] when the sleep takes place, and
    otherwise the exception raised (on Linux, an OSError when the
    deadline lies beyond what the kernel's clock can hold). *)
Record env : Type := mk_env {
  now_stamp : string;              (* datetime.now().strftime('%Y%m%d_%H%M%S') *)
  disk_usage : string -> result (Z * Z * Z);      (* total, used, free *)
  requests_get : string -> result response;
  image_open : bytes -> result image;
  image_verify : image -> option exn;
  copy2_fault : gmap string bytes -> string -> string
                -> option (exn * option bytes);
  image_save : gmap string bytes -> image -> string -> save_outcome;
  client_run : nat -> string -> result (list string);
  sleep_fault : Q -> option exn
}.

(* ================================================================== *)
(** ** State and exceptions *)

Definition M (A : Type) : Type := world -> result A * world.

Definition ret {A} (a : A) : M A := fun w => (Ok a, w).

Definition raise {A} (e : exn) : M A := fun w => (Raise e, w).

Definition bind {A B} (m : M A) (k : A -> M B) : M B :=
  fun w =>
    match m w with
    | (Ok a, w') => k a w'
    | (Raise e, w') => (Raise e, w')
    end.

(** [try: m  except Exception as e: h e] *)
Definition try_except {A} (m : M A) (h : exn -> M A) : M A :=
  fun w =>
    match m w with
    | (Ok a, w') => (Ok a, w')
    | (Raise e, w') => h e w'
    end.

(** Runs [m] and hands its outcome on as a value. *)
Definition attempt_of {A} (m : M A) : M (result A) :=
  fun w => let '(r, w') := m w in (Ok r, w').

Definition lift {A} (r : result A) : M A := fun w => (r, w).

Notation "x <- m ;; k" := (bind m (fun x => k))
  (at level 100, m at next level, right associativity).
Notation "m ;;; k" := (bind m (fun _ => k))
  (at level 100, right associativity).

Definition logger (l : level) (m : log_msg) : M unit :=
  fun w => (Ok tt, mk_world (files w) (log w ++ [mk_log l m]) (trace w)).

(** Records one event. *)
Definition emit (ev : event) (w : world) : world :=
  mk_world (files w) (log w) (trace w ++ [ev]).

(** [os.path.exists] *)
Definition path_exists (p : string) : M bool :=
  fun w => (Ok (bool_decide (is_Some (files w !! p))), w).

Definition set_files (f : gmap string bytes -> gmap string bytes) : M unit :=
  fun w => (Ok tt, mk_world (f (files w)) (log w) (trace w)).

(* ================================================================== *)
(** ** posixpath *)

Module Path.

Definition sep : ascii := "/"%char.

Fixpoint has_sep (s : string) : bool :=
  match s with
  | EmptyString => false
  | String c s' => Ascii.eqb c sep || has_sep s'
  end.

Fixpoint all_sep (s : string) : bool :=
  match s with
  | EmptyString => true
  | String c s' => Ascii.eqb c sep && all_sep s'
  end.

(** [p[:p.rfind('/') + 1]] *)
Fixpoint head (p : string) : string :=
  match p with
  | EmptyString => EmptyString
  | String c p' => if has_sep p then String c (head p') else EmptyString
  end.

(** [s.rstrip('/')] *)
Fixpoint rstrip_sep (s : string) : string :=
  match s with
  | EmptyString => EmptyString
  | String c s' => if all_sep s then EmptyString else String c (rstrip_sep s')
  end.

(** [os.path.dirname] *)
Definition dirname (p : string) : string :=
  let h := head p in
  if negb (String.eqb h "") && negb (all_sep h) then rstrip_sep h else h.

Fixpoint ends_with_sep (s : string) : bool :=
  match s with
  | EmptyString => false
  | String c EmptyString => Ascii.eqb c sep
  | String _ s' => ends_with_sep s'
  end.

(** [os.path.join(a, b)] *)
Definition join (a b : string) : string :=
  match b with
  | String c _ =>
      if Ascii.eqb c sep then b
      else if String.eqb a "" || ends_with_sep a then a ++ b
      else a ++ String sep b
  | EmptyString =>
      if String.eqb a "" || ends_with_sep a then a else a ++ String sep ""
  end.

End Path.

(* ================================================================== *)
(** ** Floats and durations *)

(** A float is the rational it stands for; infinities and NaN are left
    out. *)

(** [float(n)] for an int: Python raises OverflowError when [n] rounds to
    a magnitude of [2 ** 1024] or more, which no float has. *)
Definition fits_float (n : Z) : bool :=
  (Z.abs n <? 2 ^ 1024 - 2 ^ 970)%Z.

(** [x * n] for a float [x] and an int [n]: [n] is converted first, also
    when [x] is zero.  The product is exact when [n] is a power of two,
    as it is in the package; a product beyond the range of the floats is
    [inf] in Python and the exact rational here, and [time.sleep] refuses
    the one as it refuses the other. *)
Definition float_mul_int (x : Q) (n : Z) : result Q :=
  if fits_float n then Ok (x * inject_Z n)%Q
  else Raise (mk_exn OverflowError "int too large to convert to float").

(** The delays [time.sleep] can convert: those whose count of nanoseconds
    lies in [[-2 ** 63, 2 ** 63)]. *)
Definition sleep_limit : Q := (2 ^ 63 # 10 ^ 9).

Definition in_time_range (delay : Q) : bool :=
  Qle_bool (- sleep_limit) delay && negb (Qle_bool sleep_limit delay).

(* ================================================================== *)
(** ** Library calls, as actions on the world *)

Section Libraries.

Variable E : env.

(** [requests.get(url, timeout=30)] *)
Definition get (url : string) : M response :=
  fun w => (requests_get E url, emit (Fetched url) w).

(** [response.raise_for_status()] *)
Definition raise_for_status (r : response) : M unit :=
  if ((400 <=? status_code r) && (status_code r <? 600))%Z
  then raise (mk_exn HTTPError (http_error_msg r))
  else ret tt.

(** [Image.open(BytesIO(data))] *)
Definition Image_open (data : bytes) : M image := lift (image_open E data).

(** [image.verify()] *)
Definition verify (img : image) : M unit :=
  match image_verify E img with
  | Some e => raise e
  | None => ret tt
  end.

(** [shutil.copy2(src, dst)] *)
Definition copy2 (src dst : string) : M unit :=
  fun w =>
    match copy2_fault E (files w) src dst with
    | Some (e, residue) =>
        (match residue with
         | Some data => set_files (insert dst data)
         | None => ret tt
         end ;;; raise e) w
    | None =>
        match files w !! src with
        | Some data => set_files (insert dst data) w
        | None => (Raise (mk_exn FileNotFoundError src), w)
        end
    end.

(** [image.save(filepath)] *)
Definition save (img : image) (filepath : string) : M unit :=
  fun w =>
    match image_save E (files w) img filepath with
    | Written data => set_files (insert filepath data) w
    | SaveFailed e residue =>
        (match residue with
         | Some data => set_files (insert filepath data)
         | None => ret tt
         end ;;; raise e) w
    end.

(** [time.sleep(delay)].  CPython first converts the delay to a signed
    64-bit count of nanoseconds and raises OverflowError when it does not
    fit; only then is a negative delay refused with ValueError; a delay
    that passes both tests is handed to the operating system, which
    sleeps or refuses.  The range test is made here on the exact
    product: the rounding of the conversion, which moves the bound by
    less than one part in 10^15, is left out.  The text of the
    OverflowError is that of CPython 3.8 to 3.12, the versions the
    pinned Pillow 10.2.0 runs on. *)
Definition sleep (delay : Q) : M unit :=
  if negb (in_time_range delay) then
    raise (mk_exn OverflowError "timestamp too large to convert to C _PyTime_t")
  else if negb (Qle_bool 0 delay) then
    raise (mk_exn ValueError "sleep length must be non-negative")
  else
    match sleep_fault E delay with
    | Some e => raise e
    | None => fun w => (Ok tt, emit (Slept delay) w)
    end.

(** [self.client.run(model, input={"prompt": prompt})] *)
Definition run (prompt : string) : M (list string) :=
  fun w => (client_run E (count_runs (trace w)) prompt, emit (Ran prompt) w).

(** [output[0]] *)
Definition first_item (output : list string) : M string :=
  match output with
  | x :: _ => ret x
  | [] => raise (mk_exn IndexError "list index out of range")
  end.

(* ================================================================ *)
(** ** utils.py *)

Definition check_disk_space (filepath : string) (required_bytes : Z) : M bool :=
  try_except
    (usage <- lift (disk_usage E (Path.dirname filepath)) ;;
     let '(_, _, free) := usage in
     ret (required_bytes <? free)%Z)
    (fun e =>
       logger WARNING (FailedToCheckDiskSpace (exn_str e)) ;;;
       ret true).

(** The default of [required_bytes]: [1024 * 1024 * 10]. *)
Definition default_required_bytes : Z := 1024 * 1024 * 10.

Definition validate_image (img : image) : M bool :=
  try_except
    (verify img ;;; ret true)
    (fun e =>
       logger ERROR (ImageValidationFailed (exn_str e)) ;;;
       ret false).

Definition create_backup (filepath : string) : M (option string) :=
  found <- path_exists filepath ;;
  if negb found then ret None
  else
    let backup_path := filepath ++ ".backup" in
    try_except
      (copy2 filepath backup_path ;;; ret (Some backup_path))
      (fun e =>
         logger WARNING (FailedToCreateBackup (exn_str e)) ;;;
         ret None).

Definition image_filepath (output_dir : string) : string :=
  let timestamp := now_stamp E in
  let filename := "generated_image_" ++ timestamp ++ ".png" in
  Path.join output_dir filename.

Definition save_image_from_url (url output_dir : string) : M string :=
  let filepath := image_filepath output_dir in
  enough <- check_disk_space filepath default_required_bytes ;;
  if negb enough then
    raise (mk_exn ImageSaveError "Insufficient disk space for saving the image")
  else
    try_except
      (response <- get url ;;
       raise_for_status response ;;;
       image <- try_except
                  (Image_open (content response))
                  (fun e =>
                     if isinstance e UnidentifiedImageError then
                       raise (mk_exn ImageSaveError
                                     "Downloaded data is not a valid image")
                     else raise e) ;;
       valid <- validate_image image ;;
       if negb valid then
         raise (mk_exn ImageSaveError "Image validation failed")
       else
         found <- path_exists filepath ;;
         (if found then
            backup_path <- create_backup filepath ;;
            match backup_path with
            | Some p => logger INFO (CreatedBackupAt p)
            | None => ret tt
            end
          else ret tt) ;;;
         image_copy <- Image_open (content response) ;;
         save image_copy filepath ;;;
         logger INFO (SuccessfullySavedImageTo filepath) ;;;
         ret filepath)
      (fun e =>
         if isinstance e RequestException then
           raise (mk_exn ImageSaveError
                         ("Failed to download image: " ++ exn_str e))
         else if isinstance e OSError then
           raise (mk_exn ImageSaveError
                         ("Failed to save image: " ++ exn_str e))
         else
           raise (mk_exn ImageSaveError
                         ("Unexpected error while saving image: " ++ exn_str e))).

(* ================================================================ *)
(** ** image_generator.py *)

(** [self]: the configured output directory and the two constructor
    arguments. *)
Record ImageGenerator : Type := mk_generator {
  output_dir : string;
  max_retries : Z;
  base_delay : Q
}.

(** The dictionary [generate_image] returns. *)
Record generated : Type := mk_generated {
  filepath : string;
  prompt : string
}.

Definition _handle_api_error (error : exn) : bool * string :=
  if isinstance error ModelError then
    (false, "Model error: " ++ exn_str error)
  else if isinstance error ReplicateError then
    if PyStr.contains "rate limit" (PyStr.lower (exn_str error)) then
      (true, "Rate limit exceeded")
    else if PyStr.contains "unauthorized" (PyStr.lower (exn_str error)) then
      (false, "Invalid API token")
    else (true, "API error: " ++ exn_str error)
  else if isinstance error RequestException then
    (true, "Network error: " ++ exn_str error)
  else (false, "Unexpected error: " ++ exn_str error).

(** [range(n)] *)
Definition range (n : Z) : list Z := map Z.of_nat (seq 0 (Z.to_nat n)).

(** The body of the [try] of one iteration. *)
Definition try_attempt (self : ImageGenerator) (cleaned_prompt : string)
    (attempt : Z) : M generated :=
  (if (0 <? attempt)%Z then
     delay <- lift (float_mul_int (base_delay self) (2 ^ (attempt - 1))) ;;
     logger INFO (RetryAttempt attempt (max_retries self) delay) ;;;
     sleep delay
   else ret tt) ;;;
  output <- run cleaned_prompt ;;
  image_url <- first_item output ;;
  filepath <- save_image_from_url image_url (output_dir self) ;;
  logger INFO (SuccessfullyGenerated (attempt + 1)) ;;;
  ret (mk_generated filepath cleaned_prompt).

(** The [for attempt in range(self.max_retries + 1)] loop, over the
    attempts still to make; falling off its end returns [None]. *)
Fixpoint attempts_loop (self : ImageGenerator) (cleaned_prompt : string)
    (attempts : list Z) : M (option generated) :=
  match attempts with
  | [] => ret None
  | attempt :: rest =>
      outcome <- attempt_of (try_attempt self cleaned_prompt attempt) ;;
      match outcome with
      | Ok r => ret (Some r)
      | Raise e =>
          let '(should_retry, error_message) := _handle_api_error e in
          let last_error := mk_exn APIError error_message in
          if negb should_retry || (attempt =? max_retries self)%Z then
            logger ERROR (FailedToGenerateImage error_message) ;;;
            raise last_error
          else
            logger WARNING (AttemptFailed (attempt + 1) error_message) ;;;
            attempts_loop self cleaned_prompt rest
      end
  end.

Definition generate_image (self : ImageGenerator) (prompt : pyval)
    : M (option generated) :=
  cleaned_prompt <- lift (validate_prompt prompt) ;;
  attempts_loop self cleaned_prompt (range (max_retries self + 1)).

End Libraries.

(* ================================================================== *)
(** ** src/utils.py and src/image_generator.py: the first versions *)

Module Legacy.

(** [validate_prompt] of [src/utils.py]: no bound on the length. *)
Definition validate_prompt (prompt : pyval) : result string :=
  if negb (truthy prompt) || negb (is_str prompt) then
    Raise (mk_exn ValueError "Prompt must be a non-empty string")
  else
    match prompt with
    | PyStr s =>
        let cleaned_prompt := PyStr.strip s in
        if negb (truthy (PyStr cleaned_prompt)) then
          Raise (mk_exn ValueError "Prompt cannot be empty or just whitespace")
        else Ok cleaned_prompt
    | _ =>
        (* not reached: [is_str prompt] holds in this branch *)
        Raise (mk_exn AttributeError "strip")
    end.

(** [save_image_from_url] of [src/utils.py]: download, open, save; no
    check, no backup, and nothing is caught. *)
Definition save_image_from_url (E : env) (url output_dir : string) : M string :=
  let filepath := image_filepath E output_dir in
  response <- get E url ;;
  raise_for_status response ;;;
  image <- Image_open E (content response) ;;
  save E image filepath ;;;
  ret filepath.

(** [ImageGenerator.generate_image] of [src/image_generator.py]; of
    [self] it reads [config['output_dir']] only. *)
Definition generate_image (E : env) (output_dir : string) (prompt : pyval)
    : M generated :=
  cleaned_prompt <- lift (validate_prompt prompt) ;;
  output <- run E cleaned_prompt ;;
  image_url <- first_item output ;;
  filepath <- save_image_from_url E image_url output_dir ;;
  ret (mk_generated filepath cleaned_prompt).

End Legacy.

(* ================================================================== *)
(** ** src/config.py *)

Module Config.

(** The process environment as [load_config] meets it: the variables set
    in [os.environ], those a [.env] file offers, and whether
    [os.makedirs] raises for a path that is not empty. *)
Record os_env : Type := mk_os_env {
  environ : gmap string string;
  dotenv_file : gmap string string;
  makedirs_fault : string -> option exn
}.

(** The dictionary [load_config] returns. *)
Record config : Type := mk_config {
  api_token : string;
  output_dir : string
}.

(** [load_dotenv()]: a variable of the file is set unless the environment
    has it already. *)
Definition load_dotenv (os : os_env) : gmap string string :=
  environ os ∪ dotenv_file os.

(** [os.makedirs(path, exist_ok=True)]: the empty path is always refused
    with FileNotFoundError. *)
Definition makedirs (os : os_env) (path : string) : option exn :=
  if String.eqb path "" then
    Some (mk_exn FileNotFoundError "[Errno 2] No such file or directory: ''")
  else makedirs_fault os path.

(** [load_config()], given the directories [os.makedirs] has made or
    found so far; returns them with the one of its call added. *)
Definition load_config (os : os_env) (made : list string)
    : result config * list string :=
  let environ := load_dotenv os in
  let api_token := environ !! "REPLICATE_API_TOKEN" in
  match api_token with
  | None | Some "" =>
      (Raise (mk_exn ValueError
                "REPLICATE_API_TOKEN must be set in environment variables"),
       made)
  | Some token =>
      let output_dir := default "generated_images" (environ !! "OUTPUT_DIR") in
      match makedirs os output_dir with
      | Some e => (Raise e, made)
      | None => (Ok (mk_config token output_dir), (made ++ [output_dir])%list)
      end
  end.

End Config.

(* ================================================================== *)
(** ** image_generator.py: [__init__] and [main] *)

(** [ImageGenerator(max_retries, base_delay)]: the configuration is
    loaded, the client is built from its token, the two arguments are
    kept. *)
Definition ImageGenerator_init (os : Config.os_env) (made : list string)
    (max_retries : Z) (base_delay : Q)
    : result ImageGenerator * list string :=
  match Config.load_config os made with
  | (Ok config, made') =>
      (Ok (mk_generator (Config.output_dir config) max_retries base_delay),
       made')
  | (Raise e, made') => (Raise e, made')
  end.

(** The line [main] prints once the prompt has been read, for each way
    its [try] can end. *)
Definition report (outcome : result (option generated)) : string :=
  match outcome with
  | Ok (Some result) =>
      "Image generated successfully!" ++ String "010"%char
        ("Saved to: " ++ filepath result)
  | Ok None =>
      (* [result['filepath']] on [None] *)
      "Unexpected error occurred: 'NoneType' object is not subscriptable"
  | Raise e =>
      if isinstance e ValueError || isinstance e APIError then
        "Error: " ++ exn_str e
      else "Unexpected error occurred: " ++ exn_str e
  end.

(** [main()]: [typed] is what [input] returns (or raises).  The result is
    the line printed, the world, and the [os.makedirs] calls. *)
Definition main (os : Config.os_env) (E : env) (typed : result string)
    (w : world) (made : list string) : string * world * list string :=
  match ImageGenerator_init os made 3 1 with
  | (Raise e, made') => (report (Raise e), w, made')
  | (Ok generator, made') =>
      match typed with
      | Raise e => (report (Raise e), w, made')
      | Ok prompt =>
          let '(outcome, w') := generate_image E generator (PyStr prompt) w in
          (report outcome, w', made')
      end
  end.

(* ================================================================== *)
(** ** Vocabulary of the statements *)

(** The three errors [validate_prompt] raises. *)
Definition must_be_string : exn :=
  mk_exn ValueError "Prompt must be a non-empty string".

Definition empty_or_whitespace : exn :=
  mk_exn ValueError "Prompt cannot be empty or just whitespace".

Definition too_long : exn :=
  mk_exn ValueError "Prompt is too long (maximum 500 characters)".

(** [s * n] *)
Fixpoint str_mul (s : string) (n : nat) : string :=
  match n with
  | O => ""
  | S n' => s ++ str_mul s n'
  end.

(** The classification table read as the specification words it: the
    same six rows in the same order, the two text tests made on the
    error's text as it stands. *)
Definition classify_by_table (error : exn) : bool * string :=
  if isinstance error ModelError then
    (false, "Model error: " ++ exn_str error)
  else if isinstance error ReplicateError then
    if PyStr.contains "rate limit" (exn_str error) then
      (true, "Rate limit exceeded")
    else if PyStr.contains "unauthorized" (exn_str error) then
      (false, "Invalid API token")
    else (true, "API error: " ++ exn_str error)
  else if isinstance error RequestException then
    (true, "Network error: " ++ exn_str error)
  else (false, "Unexpected error: " ++ exn_str error).

(** The error of [test_handle_api_error_invalid_token]. *)
Definition unauthorized_access : exn :=
  mk_exn ReplicateError "Unauthorized access".

(** [E] with another answer to [shutil.disk_usage]. *)
Definition with_disk_usage (E : env) (du : string -> result (Z * Z * Z)) : env :=
  mk_env (now_stamp E) du (requests_get E) (image_open E) (image_verify E)
         (copy2_fault E) (image_save E) (client_run E) (sleep_fault E).

(** [E] with another answer to [shutil.copy2]. *)
Definition with_copy2_fault (E : env)
    (cf : gmap string bytes -> string -> string -> option (exn * option bytes))
    : env :=
  mk_env (now_stamp E) (disk_usage E) (requests_get E) (image_open E)
         (image_verify E) cf (image_save E) (client_run E) (sleep_fault E).

(** [w] after one more logging call. *)
Definition logged (l : level) (m : log_msg) (w : world) : world :=
  mk_world (files w) (log w ++ [mk_log l m]) (trace w).

(** [w] with its files changed by [g]. *)
Definition with_files (g : gmap string bytes -> gmap string bytes) (w : world)
    : world :=
  mk_world (g (files w)) (log w) (trace w).

(** What [save_image_from_url] raises on a disk found too full, and what
    it ends up raising on bytes Pillow cannot identify: the ImageSaveError
    of the inner handler, wrapped once more by the outer
    [except Exception]. *)
Definition insufficient_disk_space : exn :=
  mk_exn ImageSaveError "Insufficient disk space for saving the image".

Definition not_a_valid_image : exn :=
  mk_exn ImageSaveError
    "Unexpected error while saving image: Downloaded data is not a valid image".

(** What [output[0]] raises on an empty list, and the APIError the loop
    makes of it. *)
Definition index_error : exn := mk_exn IndexError "list index out of range".

Definition unexpected_index_error : exn :=
  mk_exn APIError "Unexpected error: list index out of range".

(** [m] leaves the projection [f] of the world as it finds it. *)
Definition keeps {A X} (f : world -> X) (m : M A) : Prop :=
  forall w, f (snd (m w)) = f w.

(** How [m] ends and the files it leaves depend on the files it finds,
    and on neither the log nor the trace. *)
Definition by_files {A} (m : M A) : Prop :=
  forall w1 w2, files w1 = files w2 ->
    fst (m w1) = fst (m w2) /\ files (snd (m w1)) = files (snd (m w2)).

(** [m] returns, whatever the world. *)
Definition returns {A} (m : M A) : Prop :=
  forall w, exists a w', m w = (Ok a, w').

(** [f"{filepath}.backup"] *)
Definition backup_of (filepath : string) : string := filepath ++ ".backup".

(** The files after a copy to [target] that raised: [target] holds what
    the copy got to write, when it got to write at all. *)
Definition left_by_failed_copy (target : string) (residue : option bytes)
    (fs : gmap string bytes) : gmap string bytes :=
  match residue with
  | Some data => <[target := data]> fs
  | None => fs
  end.

(** The response passes [raise_for_status]. *)
Definition status_ok (r : response) : Prop :=
  ((400 <=? status_code r) && (status_code r <? 600))%Z = false.

(** The disk-space check lets the call through: it found enough space,
    or could not look. *)
Definition check_passes (E : env) (output_dir : string) (w : world) : Prop :=
  fst (check_disk_space E (image_filepath E output_dir)
         default_required_bytes w) = Ok true.

(** The world in which the download starts. *)
Definition checked (E : env) (output_dir : string) (w : world) : world :=
  snd (check_disk_space E (image_filepath E output_dir)
         default_required_bytes w).

(** The world a successful call leaves when the destination existed:
    [between] is what the backup step did to the world. *)
Definition saved_over (E : env) (url output_dir : string) (w : world)
    (data : bytes) (between : world -> world) : world :=
  logged INFO (SuccessfullySavedImageTo (image_filepath E output_dir))
    (with_files (insert (image_filepath E output_dir) data)
       (between (emit (Fetched url) (checked E output_dir w)))).

(** The prompts of the remote calls in a trace, oldest first. *)
Fixpoint runs_of (t : list event) : list string :=
  match t with
  | [] => []
  | Ran p :: t' => p :: runs_of t'
  | _ :: t' => runs_of t'
  end.

(** The delays of the sleeps in a trace, oldest first. *)
Fixpoint sleeps_of (t : list event) : list Q :=
  match t with
  | [] => []
  | Slept d :: t' => d :: sleeps_of t'
  | _ :: t' => sleeps_of t'
  end.

(** [base_delay * (2 ** (attempt - 1))] *)
Definition backoff_delay (self : ImageGenerator) (attempt : Z) : Q :=
  (base_delay self * inject_Z (2 ^ (attempt - 1)))%Q.

(** The wait before [attempt] goes through: there is none to make, or
    the power of two converts to a float, the delay is in the range of
    [time.sleep] and not negative, and the operating system takes it. *)
Definition can_wait (E : env) (self : ImageGenerator) (attempt : Z) : bool :=
  negb (0 <? attempt)%Z
  || fits_float (2 ^ (attempt - 1))
     && in_time_range (backoff_delay self attempt)
     && Qle_bool 0 (backoff_delay self attempt)
     && match sleep_fault E (backoff_delay self attempt) with
        | Some _ => false
        | None => true
        end.

(** The world once the wait before [attempt] is over. *)
Definition after_backoff (self : ImageGenerator) (attempt : Z) (w : world)
    : world :=
  if (0 <? attempt)%Z then
    emit (Slept (backoff_delay self attempt))
      (logged INFO (RetryAttempt attempt (max_retries self)
                                 (backoff_delay self attempt)) w)
  else w.

(** What one attempt that reaches the remote call and no further adds to
    the trace. *)
Definition attempt_events (self : ImageGenerator) (cleaned_prompt : string)
    (attempt : Z) : list event :=
  ((if (0 <? attempt)%Z then [Slept (backoff_delay self attempt)] else [])
   ++ [Ran cleaned_prompt])%list.

(** Every remote call raises, and what it raises is classified as worth
    a retry. *)
Definition always_retryable (E : env) : Prop :=
  forall n p, exists e,
    client_run E n p = Raise e /\ fst (_handle_api_error e) = true.

(** The part of an attempt that follows the wait. *)
Definition call_and_save (E : env) (self : ImageGenerator)
    (cleaned_prompt : string) (attempt : Z) : M generated :=
  output <- run E cleaned_prompt ;;
  image_url <- first_item output ;;
  filepath <- save_image_from_url E image_url (output_dir self) ;;
  logger INFO (SuccessfullyGenerated (attempt + 1)) ;;;
  ret (mk_generated filepath cleaned_prompt).

(* ================================================================== *)
(** ** Environments and worlds for the examples *)

Module Sample.

(** A directory, a URL and a clock for the examples below. *)
Definition dir : string := "generated_images".
Definition url : string := "http://example.com/image.png".
Definition stamp : string := "20240101_120000".
Definition path : string := "generated_images/generated_image_20240101_120000.png".

(** Two byte buffers: the start of a PNG file, and [b"not an image"]. *)
Definition png_bytes : bytes :=
  [Byte.x89; Byte.x50; Byte.x4e; Byte.x47; Byte.x0d; Byte.x0a; Byte.x1a; Byte.x0a].
Definition junk_bytes : bytes := list_byte_of_string "not an image".
Definition old_bytes : bytes := list_byte_of_string "test content".

(** Pillow on these buffers: a buffer that starts with the PNG signature
    opens, anything else is not identified; saving re-encodes the image
    (here: the source followed by an end marker). *)
Definition has_png_signature (data : bytes) : bool :=
  match data with
  | Byte.x89 :: Byte.x50 :: Byte.x4e :: Byte.x47 :: _ => true
  | _ => false
  end.
Definition open_sample (data : bytes) : result image :=
  if has_png_signature data then Ok (mk_image data)
  else Raise (mk_exn UnidentifiedImageError "cannot identify image file").
Definition encode_sample (img : image) : bytes := image_source img ++ [Byte.x00].

(** Plenty of free space, a 200 response carrying [body], no copy fault,
    a remote service answering [answers] in turn (and a ModelError once
    they are used up), and an operating system that takes every sleep. *)
Definition healthy (body : bytes) (answers : list (result (list string))) : env :=
  mk_env stamp
    (fun _ => Ok (1000000000, 400000000, 600000000)%Z)
    (fun _ => Ok (mk_response 200 "" body))
    open_sample
    (fun _ => None)
    (fun _ _ _ => None)
    (fun _ img _ => Written (encode_sample img))
    (fun n _ => nth n answers (Raise (mk_exn ModelError "no answer")))
    (fun _ => None).

Definition empty_world : world := mk_world ∅ [] [].

(** A world in which the destination of the next save already exists. *)
Definition occupied_world : world :=
  mk_world {[ path := old_bytes ]} [] [].

End Sample.

(** Two more environments: one whose disk cannot be inspected, one whose
    disk is nearly full. *)
Definition no_disk_stat : env :=
  with_disk_usage (Sample.healthy Sample.png_bytes [])
    (fun _ => Raise (mk_exn PermissionError "Permission denied")).

Definition full_disk : env :=
  with_disk_usage (Sample.healthy Sample.png_bytes [])
    (fun _ => Ok (1000000000, 999998976, 1024)%Z).

(** An environment in which [shutil.copy2] is refused. *)
Definition copy_denied : env :=
  with_copy2_fault (Sample.healthy Sample.png_bytes [])
    (fun _ _ _ => Some (mk_exn PermissionError "Permission denied", None)).

(** The generator of the package's tests: [max_retries=2, base_delay=0.1]. *)
Definition sample_generator : ImageGenerator :=
  mk_generator Sample.dir 2 (1 # 10).

(** A remote service that answers every call with a rate-limit error, as
    in [test_generate_image_max_retries_exceeded]. *)
Definition rate_limited : env :=
  mk_env Sample.stamp
    (fun _ => Ok (1000000000, 400000000, 600000000)%Z)
    (fun _ => Ok (mk_response 200 "" Sample.png_bytes))
    Sample.open_sample
    (fun _ => None)
    (fun _ _ _ => None)
    (fun _ img _ => Written (Sample.encode_sample img))
    (fun _ _ => Raise (mk_exn ReplicateError "Rate limit exceeded"))
    (fun _ => None).

(** A remote service whose first answer is the empty list. *)
Definition answers_nothing : env :=
  Sample.healthy Sample.png_bytes [Ok []].

(** A remote service that answers with a URL serving [b"not an image"]. *)
Definition serves_junk : env :=
  Sample.healthy Sample.junk_bytes [Ok [Sample.url]].

(** A remote service that answers the first call with one URL. *)
Definition answers_url : env :=
  Sample.healthy Sample.png_bytes [Ok [Sample.url]].

(** A world with a second file beside the destination. *)
Definition crowded_world : world :=
  mk_world {[ Sample.path := Sample.old_bytes;
              "notes.txt" := Sample.junk_bytes ]} [] [].

(** [E] with other answers to [requests.get], [image.verify] and
    [Image.save]. *)
Definition with_requests_get (E : env) (rg : string -> result response) : env :=
  mk_env (now_stamp E) (disk_usage E) rg (image_open E) (image_verify E)
         (copy2_fault E) (image_save E) (client_run E) (sleep_fault E).

Definition with_image_verify (E : env) (iv : image -> option exn) : env :=
  mk_env (now_stamp E) (disk_usage E) (requests_get E) (image_open E) iv
         (copy2_fault E) (image_save E) (client_run E) (sleep_fault E).

Definition with_image_save (E : env)
    (sv : gmap string bytes -> image -> string -> save_outcome) : env :=
  mk_env (now_stamp E) (disk_usage E) (requests_get E) (image_open E)
         (image_verify E) (copy2_fault E) sv (client_run E) (sleep_fault E).

(** A host that cannot be reached, as in
    [test_save_image_from_url_download_error]; a URL answered with 404; an
    image that fails [verify]; a disk that fills up while the image is
    written. *)
Definition unreachable : env :=
  with_requests_get (Sample.healthy Sample.png_bytes [Ok [Sample.url]])
    (fun _ => Raise (mk_exn ConnectionError "Download failed")).

Definition not_found : env :=
  with_requests_get (Sample.healthy Sample.png_bytes [Ok [Sample.url]])
    (fun _ => Ok (mk_response 404 "404 Client Error: Not Found" [])).

Definition corrupted : env :=
  with_image_verify (Sample.healthy Sample.png_bytes [Ok [Sample.url]])
    (fun _ => Some (mk_exn Exception "Corrupted image")).

Definition disk_fills_up : env :=
  with_image_save (Sample.healthy Sample.png_bytes [Ok [Sample.url]])
    (fun _ _ _ => SaveFailed (mk_exn OSError "No space left on device")
                             (Some [])).

(** A remote service that fails once with a rate-limit error and then
    answers, as in [test_generate_image_retry_success]; one that rejects
    the request, as in [test_generate_image_unretryable_error]. *)
Definition flaky : env :=
  Sample.healthy Sample.png_bytes
    [Raise (mk_exn ReplicateError "Rate limit exceeded"); Ok [Sample.url]].

Definition model_rejects : env :=
  Sample.healthy Sample.png_bytes [Raise (mk_exn ModelError "Invalid model")].

(** Generators built with [max_retries=-1], with [base_delay=-0.1] and
    with [base_delay=1e10]. *)
Definition no_attempts_generator : ImageGenerator :=
  mk_generator Sample.dir (-1) (1 # 10).

Definition long_delay_generator : ImageGenerator :=
  mk_generator Sample.dir 2 (10000000000 # 1).

Definition negative_delay_generator : ImageGenerator :=
  mk_generator Sample.dir 2 (-1 # 10).

(** The world [attempts_loop] is in when it starts its second attempt
    after a first one that failed with [error_message]. *)
Definition after_first_failure (cleaned_prompt error_message : string)
    (w : world) : world :=
  logged WARNING (AttemptFailed 1 error_message) (emit (Ran cleaned_prompt) w).

(** Process environments: the one of the tests ([conftest.py] sets the
    token and nothing else); one without a token; one whose token is the
    empty string; two whose [.env] file offers a token and an output
    directory while the environment sets [OUTPUT_DIR], to ["out"] and to
    the empty string. *)
Definition token_only : Config.os_env :=
  Config.mk_os_env {[ "REPLICATE_API_TOKEN" := "test_token" ]} ∅
                   (fun _ => None).

Definition no_token : Config.os_env :=
  Config.mk_os_env ∅ ∅ (fun _ => None).

Definition empty_token : Config.os_env :=
  Config.mk_os_env {[ "REPLICATE_API_TOKEN" := "" ]} ∅ (fun _ => None).

Definition output_dir_set_twice : Config.os_env :=
  Config.mk_os_env {[ "OUTPUT_DIR" := "out" ]}
                   {[ "REPLICATE_API_TOKEN" := "from_file";
                      "OUTPUT_DIR" := "images" ]}
                   (fun _ => None).

Definition empty_output_dir : Config.os_env :=
  Config.mk_os_env {[ "OUTPUT_DIR" := "" ]}
                   {[ "REPLICATE_API_TOKEN" := "from_file";
                      "OUTPUT_DIR" := "images" ]}
                   (fun _ => None).

(** The errors [load_config] raises for a missing token and for an
    empty output directory. *)
Definition token_missing : exn :=
  mk_exn ValueError "REPLICATE_API_TOKEN must be set in environment variables".

Definition no_such_directory : exn :=
  mk_exn FileNotFoundError "[Errno 2] No such file or directory: ''".

(** The first line and the second line of the message [main] prints on
    success. *)
Definition success_line (saved : string) : string :=
  "Image generated successfully!" ++ String "010"%char ("Saved to: " ++ saved).

(* ================================================================== *)
(** * Facts about the string operations *)

Module PyStrFacts.
Import PyStr.

Lemma append_cons c (s t : string) : String c s ++ t = String c (s ++ t).
Proof. reflexivity. Qed.

Lemma append_nil (t : string) : "" ++ t = t.
Proof. reflexivity. Qed.

Lemma lstrip_split s :
  exists l, s = l ++ lstrip s /\ all_space l = true.
Proof.
  induction s as [|c s [l [Hs Hl]]]; simpl.
  - exists ""; auto.
  - destruct (isspace c) eqn:Hc.
    + exists (String c l). split.
      * rewrite append_cons. f_equal. exact Hs.
      * simpl. rewrite Hc. exact Hl.
    + exists ""; auto.
Qed.

Lemma lstrip_first s c :
  first_char (lstrip s) = Some c -> isspace c = false.
Proof.
  induction s as [|a s IH]; simpl; [discriminate|].
  destruct (isspace a) eqn:Ha; auto.
  simpl. intros [= <-]. exact Ha.
Qed.

Lemma lstrip_fixed s :
  (forall c, first_char s = Some c -> isspace c = false) -> lstrip s = s.
Proof.
  destruct s as [|a s]; simpl; auto.
  intros H. rewrite (H a eq_refl). reflexivity.
Qed.

Lemma rstrip_split s :
  exists r, s = rstrip s ++ r /\ all_space r = true.
Proof.
  induction s as [|c s [r [Hs Hr]]].
  - exists ""; auto.
  - cbn [rstrip]. destruct (all_space (String c s)) eqn:Hall.
    + exists (String c s); auto.
    + exists r. split; [|exact Hr].
      rewrite append_cons. f_equal. exact Hs.
Qed.

Lemma all_space_rstrip s : all_space (rstrip s) = all_space s.
Proof.
  induction s as [|c s IH]; auto.
  cbn [rstrip]. destruct (all_space (String c s)) eqn:Hall; auto.
  simpl. rewrite IH. exact Hall.
Qed.

Lemma rstrip_empty s : rstrip s = "" <-> all_space s = true.
Proof.
  destruct s as [|c s]; [simpl; tauto|].
  cbn [rstrip]. destruct (all_space (String c s)); split;
    intros; congruence.
Qed.

Lemma rstrip_last s c :
  last_char (rstrip s) = Some c -> isspace c = false.
Proof.
  induction s as [|a s IH]; [discriminate|].
  cbn [rstrip]. destruct (all_space (String a s)) eqn:Hall; [discriminate|].
  destruct (rstrip s) as [|b t] eqn:Hr.
  - simpl. intros [= <-].
    assert (Hs : all_space s = true) by (apply rstrip_empty; exact Hr).
    simpl in Hall. rewrite Hs, andb_true_r in Hall. exact Hall.
  - cbn [last_char]. exact IH.
Qed.

Lemma rstrip_first s : first_char (rstrip s) = None \/
                       first_char (rstrip s) = first_char s.
Proof.
  destruct s as [|a s]; auto.
  cbn [rstrip]. destruct (all_space (String a s)); auto.
Qed.

Lemma rstrip_idem s : rstrip (rstrip s) = rstrip s.
Proof.
  induction s as [|c s IH]; auto.
  cbn [rstrip]. destruct (all_space (String c s)) eqn:Hall; auto.
  cbn [rstrip].
  replace (all_space (String c (rstrip s))) with false.
  - rewrite IH. reflexivity.
  - simpl. rewrite all_space_rstrip. symmetry. exact Hall.
Qed.

Lemma strip_trimmed s : trimmed (strip s).
Proof.
  unfold strip. split; intros c Hc.
  - destruct (rstrip_first (lstrip s)) as [H|H]; rewrite H in Hc.
    + discriminate.
    + eapply lstrip_first; eauto.
  - eapply rstrip_last; eauto.
Qed.

Lemma strip_split s :
  exists l r, s = l ++ strip s ++ r /\
              all_space l = true /\ all_space r = true.
Proof.
  destruct (lstrip_split s) as [l [Hl Hls]].
  destruct (rstrip_split (lstrip s)) as [r [Hr Hrs]].
  exists l, r. unfold strip.
  split; [|split]; [|exact Hls|exact Hrs].
  transitivity (l ++ lstrip s); [exact Hl|]. f_equal. exact Hr.
Qed.

Lemma strip_fixed s : trimmed s -> strip s = s.
Proof.
  intros [Hf Hl]. unfold strip. rewrite (lstrip_fixed s Hf).
  clear Hf. induction s as [|c s IH]; auto.
  cbn [rstrip]. destruct (all_space (String c s)) eqn:Hall.
  - exfalso. clear IH. revert c Hl Hall.
    induction s as [|b s IHs]; intros c Hl Hall.
    + simpl in *. rewrite (Hl c eq_refl) in Hall. discriminate.
    + apply (IHs b).
      * intros d Hd. apply Hl. exact Hd.
      * simpl in Hall. apply andb_true_iff in Hall. tauto.
  - f_equal. destruct s as [|b s]; auto.
Qed.

Lemma strip_idem s : strip (strip s) = strip s.
Proof. apply strip_fixed, strip_trimmed. Qed.

Lemma strip_empty s : strip s = "" <-> all_space s = true.
Proof.
  unfold strip. rewrite rstrip_empty.
  induction s as [|c s IH]; simpl; [tauto|].
  destruct (isspace c) eqn:Hc; simpl; [exact IH|].
  rewrite Hc. simpl. tauto.
Qed.

(** [contains] decides the existence of an occurrence. *)
Lemma prefix_split p s :
  String.prefix p s = true <-> exists t, s = p ++ t.
Proof.
  revert s. induction p as [|a p IH]; intros s.
  - destruct s; simpl; split; eauto.
  - destruct s as [|b s]; simpl.
    + split; [discriminate|]. intros [t Ht].
      rewrite append_cons in Ht. discriminate.
    + destruct (ascii_dec a b) as [->|Hab].
      * rewrite IH. split; intros [t Ht]; exists t;
          rewrite append_cons in *; congruence.
      * split; [discriminate|]. intros [t Ht].
        rewrite append_cons in Ht. congruence.
Qed.

Lemma contains_split needle hay :
  contains needle hay = true <-> exists a b, hay = a ++ needle ++ b.
Proof.
  induction hay as [|c hay IH].
  - cbn [contains]. rewrite orb_false_r, prefix_split. split.
    + intros [t Ht]. exists "", t. exact Ht.
    + intros [a [b H]]. destruct a; [|rewrite append_cons in H; discriminate].
      rewrite append_nil in H. eauto.
  - cbn [contains]. rewrite orb_true_iff, prefix_split, IH. split.
    + intros [[t Ht]|[a [b H]]].
      * exists "", t. exact Ht.
      * exists (String c a), b. rewrite append_cons. congruence.
    + intros [a [b H]]. destruct a as [|d a].
      * left. rewrite append_nil in H. eauto.
      * right. exists a, b. rewrite append_cons in H. congruence.
Qed.

End PyStrFacts.

(* ================================================================== *)
(** * Prompt validation *)

Section Validation.
Import PyStr PyStrFacts.

Lemma validate_not_str v :
  (forall s, v <> PyStr s) -> validate_prompt v = Raise must_be_string.
Proof.
  intros H. destruct v; try reflexivity.
  - unfold validate_prompt. simpl. rewrite orb_true_r. reflexivity.
  - unfold validate_prompt. simpl. rewrite orb_true_r. reflexivity.
  - exfalso. eapply H. reflexivity.
  - unfold validate_prompt. simpl. rewrite orb_true_r. reflexivity.
  - unfold validate_prompt. simpl. rewrite orb_true_r. reflexivity.
Qed.

(** What [validate_prompt] does on a string, by the three tests it
    makes in turn. *)
Lemma validate_str s :
  validate_prompt (PyStr s) =
    if String.eqb s "" then Raise must_be_string
    else if String.eqb (strip s) "" then Raise empty_or_whitespace
    else if (500 <? String.length (strip s))%nat then Raise too_long
    else Ok (strip s).
Proof.
  unfold validate_prompt. simpl.
  destruct (String.eqb s ""); simpl; [reflexivity|].
  destruct (String.eqb (strip s) ""); reflexivity.
Qed.

Lemma strip_of_empty s : s = "" -> strip s = "".
Proof. intros ->. reflexivity. Qed.

Lemma validate_ok_inv p v :
  validate_prompt p = Ok v ->
  exists s, p = PyStr s /\ v = strip s /\ v <> "" /\
            (String.length v <= 500)%nat.
Proof.
  intros H. destruct p as [| | |s| |];
    try (rewrite validate_not_str in H by (intros s' [=]); discriminate).
  rewrite validate_str in H.
  destruct (String.eqb s ""); [discriminate|].
  destruct (String.eqb_spec (strip s) ""); [discriminate|].
  destruct (Nat.ltb_spec 500 (String.length (strip s))); [discriminate|].
  injection H as <-. exists s. auto.
Qed.

Lemma validate_clean v :
  v <> "" -> strip v = v -> (String.length v <= 500)%nat ->
  validate_prompt (PyStr v) = Ok v.
Proof.
  intros Hne Hfix Hlen. rewrite validate_str, Hfix.
  destruct (String.eqb_spec v ""); [contradiction|].
  destruct (Nat.ltb_spec 500 (String.length v)); [lia|reflexivity].
Qed.

(** C4.  [validate_prompt] raises ValueError on every value that is not
    a string, on every string that strips to the empty string, and on
    every string that strips to more than 500 characters; on every other
    string it returns the stripped string, which is the input without
    the whitespace at its two ends; ["  hi  "] yields ["hi"]. *)
Theorem validate_prompt_cases :
  (forall v, (forall s, v <> PyStr s) ->
     validate_prompt v = Raise must_be_string) /\
  (forall s, strip s = "" ->
     validate_prompt (PyStr s) = Raise must_be_string \/
     validate_prompt (PyStr s) = Raise empty_or_whitespace) /\
  (forall s, (500 < String.length (strip s))%nat ->
     validate_prompt (PyStr s) = Raise too_long) /\
  (forall s, strip s <> "" -> (String.length (strip s) <= 500)%nat ->
     validate_prompt (PyStr s) = Ok (strip s)) /\
  (forall s, trimmed (strip s) /\
     exists l r, s = l ++ strip s ++ r /\
                 all_space l = true /\ all_space r = true) /\
  validate_prompt (PyStr "  hi  ") = Ok "hi".
Proof.
  split; [exact validate_not_str|].
  split.
  { intros s Hs. rewrite validate_str, Hs.
    destruct (String.eqb s ""); auto. }
  split.
  { intros s Hlen. rewrite validate_str.
    destruct (String.eqb_spec s "") as [->|_]; [simpl in Hlen; lia|].
    destruct (String.eqb_spec (strip s) "") as [Hs|_].
    - rewrite Hs in Hlen. simpl in Hlen. lia.
    - destruct (Nat.ltb_spec 500 (String.length (strip s)));
        [reflexivity|lia]. }
  split.
  { intros s Hne Hlen. rewrite validate_str.
    destruct (String.eqb_spec s "") as [Hs|_];
      [elim Hne; apply strip_of_empty, Hs|].
    destruct (String.eqb_spec (strip s) ""); [contradiction|].
    destruct (Nat.ltb_spec 500 (String.length (strip s)));
      [lia|reflexivity]. }
  split.
  { intros s. split; [apply strip_trimmed|apply strip_split]. }
  reflexivity.
Qed.

(** The cases of C4 at [None], [123], [""], ["   "], 501 letters and
    ["  Test prompt  "]. *)
Lemma validate_prompt_cases_witness :
  validate_prompt PyNone = Raise must_be_string /\
  validate_prompt (PyInt 123) = Raise must_be_string /\
  (validate_prompt (PyStr "") = Raise must_be_string \/
   validate_prompt (PyStr "") = Raise empty_or_whitespace) /\
  (validate_prompt (PyStr "   ") = Raise must_be_string \/
   validate_prompt (PyStr "   ") = Raise empty_or_whitespace) /\
  validate_prompt (PyStr (str_mul "a" 501)) = Raise too_long /\
  validate_prompt (PyStr "  Test prompt  ") = Ok "Test prompt".
Proof.
  destruct validate_prompt_cases as (Hv & He & Hl & Hok & _ & _).
  split; [apply Hv; intros s [=]|].
  split; [apply Hv; intros s [=]|].
  split; [apply He; reflexivity|].
  split; [apply He; reflexivity|].
  split; [apply Hl; vm_compute; lia|].
  apply (Hok "  Test prompt  "); vm_compute; [intros [=]|lia].
Defined.

(** C5.  Validation is idempotent: a value [validate_prompt] returns is
    returned unchanged when validated again. *)
Theorem validate_prompt_idempotent p v :
  validate_prompt p = Ok v -> validate_prompt (PyStr v) = Ok v.
Proof.
  intros H. destruct (validate_ok_inv p v H) as (s & _ & Hv & Hne & Hlen).
  apply validate_clean; auto.
  subst v. apply strip_idem.
Qed.

Lemma validate_prompt_idempotent_witness :
  validate_prompt (PyStr "hi") = Ok "hi".
Proof.
  apply (validate_prompt_idempotent (PyStr "  hi  ") "hi"). reflexivity.
Defined.

End Validation.

(* ================================================================== *)
(** * Error classification *)

Section Classification.
Import PyStr PyStrFacts.

Lemma lower_app s t : lower (s ++ t) = lower s ++ lower t.
Proof.
  induction s as [|c s IH]; [reflexivity|].
  rewrite append_cons. cbn [lower]. rewrite append_cons, IH. reflexivity.
Qed.

(** An occurrence of a lower-case needle survives lower-casing. *)
Lemma contains_lower needle hay :
  lower needle = needle ->
  contains needle hay = true -> contains needle (lower hay) = true.
Proof.
  intros Hn H. apply contains_split in H as (a & b & ->).
  apply contains_split. exists (lower a), (lower b).
  rewrite !lower_app, Hn. reflexivity.
Qed.

(** The three families of the table exclude one another. *)
Lemma replicate_error_not_model e :
  isinstance e ReplicateError = true -> isinstance e ModelError = false.
Proof. destruct e as [[] t]; vm_compute; congruence. Qed.

Lemma request_exception_not_replicate e :
  isinstance e RequestException = true ->
  isinstance e ModelError = false /\ isinstance e ReplicateError = false.
Proof. destruct e as [[] t]; vm_compute; split; congruence. Qed.

(** C2, as amended.  [_handle_api_error] maps every exception to a pair
    (retry, message) by its class and, for a ReplicateError, by its text
    in lower case: a ModelError is not retried ("Model error: ..."); a
    ReplicateError whose lower-cased text contains "rate limit" is
    retried ("Rate limit exceeded"); one whose lower-cased text contains
    "unauthorized" and not "rate limit" is not retried ("Invalid API
    token"); any other ReplicateError is retried ("API error: ..."); a
    RequestException is retried ("Network error: ..."); anything else is
    not retried ("Unexpected error: ...").  A text that contains
    "rate limit" as it stands is in the second row. *)
Theorem handle_api_error_table (e : exn) :
  (isinstance e ModelError = true ->
     _handle_api_error e = (false, "Model error: " ++ exn_str e)) /\
  (isinstance e ReplicateError = true ->
     (contains "rate limit" (lower (exn_str e)) = true ->
        _handle_api_error e = (true, "Rate limit exceeded")) /\
     (contains "rate limit" (exn_str e) = true ->
        _handle_api_error e = (true, "Rate limit exceeded")) /\
     (contains "rate limit" (lower (exn_str e)) = false ->
      contains "unauthorized" (lower (exn_str e)) = true ->
        _handle_api_error e = (false, "Invalid API token")) /\
     (contains "rate limit" (lower (exn_str e)) = false ->
      contains "unauthorized" (lower (exn_str e)) = false ->
        _handle_api_error e = (true, "API error: " ++ exn_str e))) /\
  (isinstance e RequestException = true ->
     _handle_api_error e = (true, "Network error: " ++ exn_str e)) /\
  (isinstance e ModelError = false ->
   isinstance e ReplicateError = false ->
   isinstance e RequestException = false ->
     _handle_api_error e = (false, "Unexpected error: " ++ exn_str e)).
Proof.
  unfold _handle_api_error. split; [|split; [|split]].
  - intros ->. reflexivity.
  - intros Hr. rewrite (replicate_error_not_model e Hr), Hr.
    split; [|split; [|split]].
    + intros ->. reflexivity.
    + intros H. rewrite (contains_lower _ _ eq_refl H). reflexivity.
    + intros -> ->. reflexivity.
    + intros -> ->. reflexivity.
  - intros Hq. destruct (request_exception_not_replicate e Hq) as [-> ->].
    rewrite Hq. reflexivity.
  - intros -> -> ->. reflexivity.
Qed.

(** The rows of the table at the errors of the package's tests. *)
Lemma handle_api_error_table_witness :
  _handle_api_error (mk_exn ModelError "Invalid model")
    = (false, "Model error: Invalid model") /\
  _handle_api_error (mk_exn ReplicateError "Rate limit exceeded")
    = (true, "Rate limit exceeded") /\
  _handle_api_error unauthorized_access = (false, "Invalid API token") /\
  _handle_api_error (mk_exn ReplicateError "Bad gateway")
    = (true, "API error: Bad gateway") /\
  _handle_api_error (mk_exn ConnectionError "Connection failed")
    = (true, "Network error: Connection failed") /\
  _handle_api_error (mk_exn Exception "Unexpected error")
    = (false, "Unexpected error: Unexpected error").
Proof.
  split.
  { apply (proj1 (handle_api_error_table (mk_exn ModelError "Invalid model"))).
    reflexivity. }
  split.
  { destruct (proj1 (proj2 (handle_api_error_table
                (mk_exn ReplicateError "Rate limit exceeded"))) eq_refl)
      as (Hrate & _).
    apply Hrate. reflexivity. }
  split.
  { destruct (proj1 (proj2 (handle_api_error_table unauthorized_access))
                eq_refl) as (_ & _ & Hunauth & _).
    apply Hunauth; reflexivity. }
  split.
  { destruct (proj1 (proj2 (handle_api_error_table
                (mk_exn ReplicateError "Bad gateway"))) eq_refl)
      as (_ & _ & _ & Hother).
    apply Hother; reflexivity. }
  split.
  { apply (proj1 (proj2 (proj2 (handle_api_error_table
                           (mk_exn ConnectionError "Connection failed"))))).
    reflexivity. }
  apply (proj2 (proj2 (proj2 (handle_api_error_table
                           (mk_exn Exception "Unexpected error")))));
    reflexivity.
Defined.

(** C2, as stated, fails: the text "Unauthorized access" contains
    neither "rate limit" nor "unauthorized", so the table as worded
    files the error under "any other remote-service error" (retry,
    "API error: ..."), while [_handle_api_error] answers no-retry,
    "Invalid API token". *)
Lemma handle_api_error_table_counterexample :
  isinstance unauthorized_access ReplicateError = true /\
  contains "rate limit" (exn_str unauthorized_access) = false /\
  contains "unauthorized" (exn_str unauthorized_access) = false /\
  classify_by_table unauthorized_access
    = (true, "API error: Unauthorized access") /\
  _handle_api_error unauthorized_access = (false, "Invalid API token") /\
  ~ (forall e, _handle_api_error e = classify_by_table e).
Proof.
  repeat (split; [reflexivity|]).
  intros H. specialize (H unauthorized_access). discriminate H.
Qed.

End Classification.

(* ================================================================== *)
(** * The persistence pipeline *)

(** How [bind] and [try_except] run once the first action has run. *)
Lemma bind_ok {A B} (m : M A) (k : A -> M B) w a w' :
  m w = (Ok a, w') -> bind m k w = k a w'.
Proof. intros H. unfold bind. rewrite H. reflexivity. Qed.

Lemma bind_raise {A B} (m : M A) (k : A -> M B) w e w' :
  m w = (Raise e, w') -> bind m k w = (Raise e, w').
Proof. intros H. unfold bind. rewrite H. reflexivity. Qed.

Lemma try_ok {A} (m : M A) (h : exn -> M A) w a w' :
  m w = (Ok a, w') -> try_except m h w = (Ok a, w').
Proof. intros H. unfold try_except. rewrite H. reflexivity. Qed.

Lemma try_raise {A} (m : M A) (h : exn -> M A) w e w' :
  m w = (Raise e, w') -> try_except m h w = h e w'.
Proof. intros H. unfold try_except. rewrite H. reflexivity. Qed.

Section DiskSpace.

Variable E : env.
Variables (url output_dir : string) (w : world).

Let filepath := image_filepath E output_dir.

Lemma check_disk_space_raises e required :
  disk_usage E (Path.dirname filepath) = Raise e ->
  check_disk_space E filepath required w
  = (Ok true, logged WARNING (FailedToCheckDiskSpace (exn_str e)) w).
Proof.
  intros H. unfold check_disk_space, try_except, bind, lift. rewrite H.
  reflexivity.
Qed.

Lemma check_disk_space_answers total used free required :
  disk_usage E (Path.dirname filepath) = Ok (total, used, free) ->
  check_disk_space E filepath required w = (Ok (required <? free)%Z, w).
Proof.
  intros H. unfold check_disk_space, try_except, bind, lift. rewrite H.
  reflexivity.
Qed.

(** C7.  The disk-space check fails open: when [shutil.disk_usage] raises,
    [check_disk_space] answers [True] after logging a warning, and
    [save_image_from_url] goes on exactly as it does, from the world with
    that warning logged, when the check finds more free space than the
    floor.  When the check finds free space at or below the floor, the
    call raises ImageSaveError("Insufficient disk space ...") and leaves
    the world as it was: the trace has no new event, so nothing has been
    fetched. *)
Theorem disk_check_advisory :
  (forall e, disk_usage E (Path.dirname filepath) = Raise e ->
     check_disk_space E filepath default_required_bytes w
     = (Ok true, logged WARNING (FailedToCheckDiskSpace (exn_str e)) w) /\
     forall total used free, (default_required_bytes < free)%Z ->
       save_image_from_url E url output_dir w
       = save_image_from_url
           (with_disk_usage E (fun _ => Ok (total, used, free)))
           url output_dir
           (logged WARNING (FailedToCheckDiskSpace (exn_str e)) w)) /\
  (forall total used free,
     disk_usage E (Path.dirname filepath) = Ok (total, used, free) ->
     (free <= default_required_bytes)%Z ->
     save_image_from_url E url output_dir w
     = (Raise insufficient_disk_space, w) /\
     trace (snd (save_image_from_url E url output_dir w)) = trace w).
Proof.
  split.
  - intros e He. split; [apply check_disk_space_raises; exact He|].
    intros total used free Hfree.
    apply Z.ltb_lt in Hfree.
    unfold save_image_from_url.
    rewrite (bind_ok _ _ _ _ _ (check_disk_space_raises e _ He)).
    erewrite (bind_ok (check_disk_space (with_disk_usage E _) _ _)).
    2:{ unfold check_disk_space, try_except, bind, lift, ret. simpl disk_usage.
        cbv beta iota. rewrite Hfree. reflexivity. }
    reflexivity.
  - intros total used free Hdu Hfree.
    apply Z.ltb_ge in Hfree.
    assert (Hsave : save_image_from_url E url output_dir w
                    = (Raise insufficient_disk_space, w)).
    { unfold save_image_from_url.
      rewrite (bind_ok _ _ _ _ _ (check_disk_space_answers _ _ _ _ Hdu)).
      rewrite Hfree. reflexivity. }
    rewrite Hsave. split; reflexivity.
Qed.

End DiskSpace.

(** C7 at a disk that cannot be inspected and at a disk with 1024 bytes
    free. *)
Lemma disk_check_advisory_witness :
  save_image_from_url no_disk_stat Sample.url Sample.dir Sample.empty_world
  = save_image_from_url
      (with_disk_usage no_disk_stat (fun _ => Ok (100, 0, 20000000)%Z))
      Sample.url Sample.dir
      (logged WARNING (FailedToCheckDiskSpace "Permission denied")
              Sample.empty_world) /\
  save_image_from_url full_disk Sample.url Sample.dir Sample.empty_world
  = (Raise insufficient_disk_space, Sample.empty_world).
Proof.
  split.
  - refine (proj2 (proj1 (disk_check_advisory no_disk_stat Sample.url
                            Sample.dir Sample.empty_world)
                         (mk_exn PermissionError "Permission denied") eq_refl)
                  100%Z 0%Z 20000000%Z _).
    reflexivity.
  - refine (proj1 (proj2 (disk_check_advisory full_disk Sample.url
                            Sample.dir Sample.empty_world)
                         1000000000%Z 999998976%Z 1024%Z eq_refl _)).
    vm_compute. discriminate.
Defined.

(* ------------------------------------------------------------------ *)
(** ** What an action leaves alone *)

Section Keeps.

Context {X : Type} (f : world -> X).

Lemma keeps_ret {A} (a : A) : keeps f (ret a).
Proof. intros w. reflexivity. Qed.

Lemma keeps_raise {A} e : keeps f (@raise A e).
Proof. intros w. reflexivity. Qed.

Lemma keeps_lift {A} (r : result A) : keeps f (lift r).
Proof. intros w. reflexivity. Qed.

Lemma keeps_bind {A B} (m : M A) (k : A -> M B) :
  keeps f m -> (forall a, keeps f (k a)) -> keeps f (bind m k).
Proof.
  intros Hm Hk w. unfold bind. specialize (Hm w).
  destruct (m w) as [[a|e] w']; simpl in *.
  - rewrite Hk. exact Hm.
  - exact Hm.
Qed.

Lemma keeps_try {A} (m : M A) (h : exn -> M A) :
  keeps f m -> (forall e, keeps f (h e)) -> keeps f (try_except m h).
Proof.
  intros Hm Hh w. unfold try_except. specialize (Hm w).
  destruct (m w) as [[a|e] w']; simpl in *.
  - exact Hm.
  - rewrite Hh. exact Hm.
Qed.

Lemma keeps_attempt_of {A} (m : M A) : keeps f m -> keeps f (attempt_of m).
Proof.
  intros Hm w. unfold attempt_of. specialize (Hm w).
  destruct (m w) as [r w']. exact Hm.
Qed.

Lemma keeps_if {A} (b : bool) (m1 m2 : M A) :
  keeps f m1 -> keeps f m2 -> keeps f (if b then m1 else m2).
Proof. destruct b; auto. Qed.

End Keeps.

Lemma keeps_files_logger l m : keeps files (logger l m).
Proof. intros w. reflexivity. Qed.

Lemma keeps_trace_logger l m : keeps trace (logger l m).
Proof. intros w. reflexivity. Qed.

Lemma keeps_files_path_exists p : keeps files (path_exists p).
Proof. intros w. reflexivity. Qed.

Lemma keeps_trace_path_exists p : keeps trace (path_exists p).
Proof. intros w. reflexivity. Qed.

Lemma keeps_log_path_exists p : keeps log (path_exists p).
Proof. intros w. reflexivity. Qed.

Lemma keeps_trace_set_files g : keeps trace (set_files g).
Proof. intros w. reflexivity. Qed.

Lemma keeps_log_set_files g : keeps log (set_files g).
Proof. intros w. reflexivity. Qed.

Create HintDb keeps.
#[export] Hint Resolve keeps_ret keeps_raise keeps_lift keeps_attempt_of
  keeps_files_logger keeps_trace_logger keeps_files_path_exists
  keeps_trace_path_exists keeps_log_path_exists keeps_trace_set_files
  keeps_log_set_files : keeps.

(** Splits an action built from [bind], [try_except], [if] and [match]
    into its primitive steps, and looks each up in the hint base. *)
Ltac keeps_step :=
  match goal with
  | |- keeps _ (bind _ _) => apply keeps_bind; [|intros ?]
  | |- keeps _ (try_except _ _) => apply keeps_try; [|intros ?]
  | |- keeps _ (if ?b then _ else _) => destruct b
  | |- keeps _ (match ?x with _ => _ end) => destruct x
  | |- keeps _ _ => solve [auto with keeps]
  end.
Ltac keeps_auto := repeat keeps_step.

Section PipelineFrames.

Variable E : env.

Lemma keeps_files_check_disk_space p n : keeps files (check_disk_space E p n).
Proof. unfold check_disk_space. keeps_auto. Qed.

Lemma keeps_trace_check_disk_space p n : keeps trace (check_disk_space E p n).
Proof. unfold check_disk_space. keeps_auto. Qed.

Lemma keeps_files_validate_image img : keeps files (validate_image E img).
Proof. unfold validate_image, verify. keeps_auto. Qed.

Lemma keeps_trace_validate_image img : keeps trace (validate_image E img).
Proof. unfold validate_image, verify. keeps_auto. Qed.

Lemma keeps_trace_copy2 a b : keeps trace (copy2 E a b).
Proof.
  intros w. unfold copy2.
  destruct (copy2_fault E (files w) a b) as [[e [data|]]|];
    [reflexivity|reflexivity|].
  destruct (files w !! a); reflexivity.
Qed.

Lemma keeps_trace_create_backup p : keeps trace (create_backup E p).
Proof.
  unfold create_backup. pose proof keeps_trace_copy2. keeps_auto.
Qed.

Lemma keeps_trace_save img p : keeps trace (save E img p).
Proof.
  intros w. unfold save.
  destruct (image_save E (files w) img p) as [data|e [data|]]; reflexivity.
Qed.

End PipelineFrames.

(* ------------------------------------------------------------------ *)
(** ** Download, decode, back up, write *)

Lemma append_length (s t : string) :
  String.length (s ++ t) = String.length s + String.length t.
Proof.
  induction s as [|c s IH]; [reflexivity|].
  rewrite PyStrFacts.append_cons. simpl. rewrite IH. reflexivity.
Qed.

Lemma backup_of_differs filepath : backup_of filepath <> filepath.
Proof.
  unfold backup_of. intros H. apply (f_equal String.length) in H.
  rewrite append_length in H. simpl in H. lia.
Qed.

Section Persist.

Variable E : env.
Variables (url output_dir : string) (w : world).

Let filepath := image_filepath E output_dir.

Lemma save_after_check :
  check_passes E output_dir w ->
  forall (body : M string) (handler : exn -> M string),
    (enough <- check_disk_space E filepath default_required_bytes ;;
     if negb enough then raise insufficient_disk_space
     else try_except body handler) w
    = try_except body handler (checked E output_dir w).
Proof.
  unfold check_passes, checked. fold filepath. intros H body handler.
  unfold bind at 1.
  destruct (check_disk_space E filepath default_required_bytes w) as [r w1].
  simpl in H. subst r. reflexivity.
Qed.

Lemma files_checked : files (checked E output_dir w) = files w.
Proof. apply keeps_files_check_disk_space. Qed.

Lemma trace_checked : trace (checked E output_dir w) = trace w.
Proof. apply keeps_trace_check_disk_space. Qed.

(** C6.  When the check lets the call through, the download succeeds and
    Pillow cannot identify the downloaded bytes, [save_image_from_url]
    raises ImageSaveError with a text that contains "not a valid image",
    after one download and without touching any file: the destination is
    as it was, so it has not been created. *)
Theorem non_image_rejected resp e :
  check_passes E output_dir w ->
  requests_get E url = Ok resp ->
  status_ok resp ->
  image_open E (content resp) = Raise e ->
  isinstance e UnidentifiedImageError = true ->
  fst (save_image_from_url E url output_dir w) = Raise not_a_valid_image /\
  exn_cls not_a_valid_image = ImageSaveError /\
  PyStr.contains "not a valid image" (exn_str not_a_valid_image) = true /\
  files (snd (save_image_from_url E url output_dir w)) = files w /\
  files (snd (save_image_from_url E url output_dir w)) !! filepath
    = files w !! filepath /\
  trace (snd (save_image_from_url E url output_dir w))
    = (trace w ++ [Fetched url])%list.
Proof.
  intros Hcheck Hget Hstatus Hopen Hcls.
  assert (Hrun : save_image_from_url E url output_dir w
                 = (Raise not_a_valid_image, emit (Fetched url) (checked E output_dir w))).
  { unfold save_image_from_url. fold filepath.
    rewrite (save_after_check Hcheck).
    erewrite try_raise; cycle 1.
    { erewrite bind_ok; [|unfold get; rewrite Hget; reflexivity].
      erewrite bind_ok;
        [|unfold raise_for_status; red in Hstatus; rewrite Hstatus;
          reflexivity].
      erewrite bind_raise; [reflexivity|].
      erewrite try_raise;
        [|unfold Image_open, lift; rewrite Hopen; reflexivity].
      rewrite Hcls. reflexivity. }
    reflexivity. }
  rewrite Hrun. simpl fst. simpl snd.
  split; [reflexivity|]. split; [reflexivity|]. split; [reflexivity|].
  unfold emit. simpl files. simpl trace.
  rewrite files_checked, trace_checked. auto.
Qed.

End Persist.

(** C6 at a URL that serves [b"not an image"], as in
    [test_save_image_from_url_invalid_image]. *)
Lemma non_image_rejected_witness :
  fst (save_image_from_url (Sample.healthy Sample.junk_bytes [])
         Sample.url Sample.dir Sample.empty_world)
  = Raise not_a_valid_image /\
  files (snd (save_image_from_url (Sample.healthy Sample.junk_bytes [])
                Sample.url Sample.dir Sample.empty_world))
    !! Sample.path = None.
Proof.
  destruct (non_image_rejected (Sample.healthy Sample.junk_bytes [])
              Sample.url Sample.dir Sample.empty_world
              (mk_response 200 "" Sample.junk_bytes)
              (mk_exn UnidentifiedImageError "cannot identify image file")
              eq_refl eq_refl eq_refl eq_refl eq_refl)
    as (Hr & _ & _ & _ & Hf & _).
  split; [exact Hr|].
  etransitivity; [exact Hf|]. reflexivity.
Defined.

Section Steps.

Variable E : env.

Lemma get_ok url resp w :
  requests_get E url = Ok resp ->
  get E url w = (Ok resp, emit (Fetched url) w).
Proof. intros H. unfold get. rewrite H. reflexivity. Qed.

Lemma raise_for_status_ok resp w :
  status_ok resp -> raise_for_status resp w = (Ok tt, w).
Proof. intros H. unfold raise_for_status. rewrite H. reflexivity. Qed.

Lemma Image_open_ok data img w :
  image_open E data = Ok img -> Image_open E data w = (Ok img, w).
Proof. intros H. unfold Image_open, lift. rewrite H. reflexivity. Qed.

Lemma validate_image_ok img w :
  image_verify E img = None -> validate_image E img w = (Ok true, w).
Proof.
  intros H. unfold validate_image, verify. rewrite H. reflexivity.
Qed.

Lemma path_exists_found p data w :
  files w !! p = Some data -> path_exists p w = (Ok true, w).
Proof. intros H. unfold path_exists. rewrite H. reflexivity. Qed.

Lemma create_backup_copied p old w :
  files w !! p = Some old ->
  copy2_fault E (files w) p (backup_of p) = None ->
  create_backup E p w
  = (Ok (Some (backup_of p)), with_files (insert (backup_of p) old) w).
Proof.
  intros Hold Hc. unfold create_backup.
  rewrite (bind_ok _ _ _ _ _ (path_exists_found _ _ _ Hold)). change (negb true) with false.
  cbv iota. fold (backup_of p).
  apply try_ok. erewrite bind_ok; [reflexivity|].
  unfold copy2. rewrite Hc, Hold. reflexivity.
Qed.

Lemma create_backup_failed p old e residue w :
  files w !! p = Some old ->
  copy2_fault E (files w) p (backup_of p) = Some (e, residue) ->
  create_backup E p w
  = (Ok None,
     logged WARNING (FailedToCreateBackup (exn_str e))
       (with_files (left_by_failed_copy (backup_of p) residue) w)).
Proof.
  intros Hold Hc. unfold create_backup.
  rewrite (bind_ok _ _ _ _ _ (path_exists_found _ _ _ Hold)). change (negb true) with false.
  cbv iota. fold (backup_of p).
  erewrite try_raise; [reflexivity|].
  erewrite bind_raise; [reflexivity|].
  unfold copy2. rewrite Hc. destruct residue as [data|]; [reflexivity|].
  destruct w; reflexivity.
Qed.

Lemma save_written img p data w :
  image_save E (files w) img p = Written data ->
  save E img p w = (Ok tt, with_files (insert p data) w).
Proof. intros H. unfold save. rewrite H. reflexivity. Qed.

End Steps.

(* ------------------------------------------------------------------ *)
(** ** The backup step *)

Lemma create_backup_returns E p : returns (create_backup E p).
Proof.
  intros w. unfold create_backup, bind at 1, path_exists.
  destruct (bool_decide (is_Some (files w !! p))); simpl; [|eauto].
  unfold try_except, bind.
  destruct (copy2 E p (p ++ ".backup") w) as [[[]|e] w']; simpl; eauto.
Qed.

Section Backup.

Variable E : env.
Variables (url output_dir : string) (w : world).

Let filepath := image_filepath E output_dir.

Lemma save_over_existing resp img old data backup_path between :
  check_passes E output_dir w ->
  requests_get E url = Ok resp ->
  status_ok resp ->
  image_open E (content resp) = Ok img ->
  image_verify E img = None ->
  files w !! filepath = Some old ->
  create_backup E filepath (emit (Fetched url) (checked E output_dir w))
  = (Ok backup_path,
     between (emit (Fetched url) (checked E output_dir w))) ->
  image_save E (files (between (emit (Fetched url) (checked E output_dir w))))
             img filepath = Written data ->
  save_image_from_url E url output_dir w
  = (Ok filepath,
     saved_over E url output_dir w data
       (fun w' => match backup_path with
                  | Some p => logged INFO (CreatedBackupAt p) (between w')
                  | None => between w'
                  end)).
Proof.
  intros Hcheck Hget Hstatus Hopen Hverify Hold Hbackup Hsave.
  assert (Hfound : path_exists filepath
                     (emit (Fetched url) (checked E output_dir w))
                   = (Ok true, emit (Fetched url) (checked E output_dir w))).
  { eapply path_exists_found. simpl files.
    rewrite (files_checked E output_dir w). exact Hold. }
  unfold save_image_from_url. fold filepath.
  rewrite (save_after_check E output_dir w Hcheck).
  apply try_ok.
  rewrite (bind_ok _ _ _ _ _ (get_ok E _ _ _ Hget)).
  rewrite (bind_ok _ _ _ _ _ (raise_for_status_ok _ _ Hstatus)).
  erewrite bind_ok; [|apply try_ok, Image_open_ok, Hopen].
  rewrite (bind_ok _ _ _ _ _ (validate_image_ok E _ _ Hverify)).
  change (negb true) with false. cbv iota.
  rewrite (bind_ok _ _ _ _ _ Hfound). cbv iota.
  destruct backup_path as [bp|].
  - erewrite bind_ok;
      [|rewrite (bind_ok _ _ _ _ _ Hbackup); reflexivity].
    erewrite bind_ok; [|apply Image_open_ok, Hopen].
    erewrite bind_ok; [|apply save_written, Hsave].
    reflexivity.
  - erewrite bind_ok;
      [|rewrite (bind_ok _ _ _ _ _ Hbackup); reflexivity].
    erewrite bind_ok; [|apply Image_open_ok, Hopen].
    erewrite bind_ok; [|apply save_written, Hsave].
    reflexivity.
Qed.


End Backup.



(* ================================================================== *)
(** * The retry loop *)

Lemma runs_of_app t1 t2 : runs_of (t1 ++ t2) = (runs_of t1 ++ runs_of t2)%list.
Proof.
  induction t1 as [|[p|d|u] t1 IH]; simpl; [reflexivity| |exact IH|exact IH].
  rewrite IH. reflexivity.
Qed.

Lemma sleeps_of_app t1 t2 :
  sleeps_of (t1 ++ t2) = (sleeps_of t1 ++ sleeps_of t2)%list.
Proof.
  induction t1 as [|[p|d|u] t1 IH]; simpl; [reflexivity|exact IH| |exact IH].
  rewrite IH. reflexivity.
Qed.

Lemma count_runs_length t : count_runs t = length (runs_of t).
Proof.
  induction t as [|[p|d|u] t IH]; simpl; auto.
Qed.

Section SaveFrames.

Variable E : env.

Lemma check_disk_space_returns p n : returns (check_disk_space E p n).
Proof.
  intros w. unfold check_disk_space, try_except, bind, lift.
  destruct (disk_usage E (Path.dirname p)) as [[[t u] f]|e]; simpl; eauto.
Qed.

(** Whatever [save_image_from_url] raises is an ImageSaveError. *)
Lemma save_image_from_url_raises url dir w e w' :
  save_image_from_url E url dir w = (Raise e, w') ->
  exn_cls e = ImageSaveError.
Proof.
  unfold save_image_from_url.
  destruct (check_disk_space_returns (image_filepath E dir)
              default_required_bytes w) as (enough & w1 & Hc).
  rewrite (bind_ok _ _ _ _ _ Hc).
  destruct enough; simpl.
  - unfold try_except.
    match goal with |- context [?body w1] => destruct (body w1) as [[a|e0] w2] end.
    + discriminate.
    + destruct (isinstance e0 RequestException);
        [|destruct (isinstance e0 OSError)];
        intros [= <- _]; reflexivity.
  - intros [= <- _]. reflexivity.
Qed.

Lemma keeps_runs_of {A} (m : M A) :
  keeps trace m -> keeps (fun w => runs_of (trace w)) m.
Proof. intros H w. rewrite H. reflexivity. Qed.

Lemma keeps_runs_get url : keeps (fun w => runs_of (trace w)) (get E url).
Proof.
  intros w. unfold get, emit. simpl. rewrite runs_of_app. apply app_nil_r.
Qed.

(** [save_image_from_url] makes no remote call. *)
Lemma save_image_from_url_runs url dir :
  keeps (fun w => runs_of (trace w)) (save_image_from_url E url dir).
Proof.
  pose proof (keeps_trace_check_disk_space E).
  pose proof (keeps_trace_validate_image E).
  pose proof (keeps_trace_create_backup E).
  pose proof (keeps_trace_save E).
  unfold save_image_from_url, raise_for_status, Image_open.
  repeat first
    [ apply keeps_runs_get
    | apply keeps_runs_of; solve [auto with keeps]
    | apply keeps_bind; [|intros ?]
    | apply keeps_try; [|intros ?]
    | match goal with
      | |- keeps _ (if ?b then _ else _) => destruct b
      | |- keeps _ (match ?x with _ => _ end) => destruct x
      end ].
Qed.

End SaveFrames.

Lemma backoff_delay_nonneg self attempt :
  (0 <= base_delay self)%Q -> Qle_bool 0 (backoff_delay self attempt) = true.
Proof.
  intros Hb. apply Qle_bool_iff. unfold backoff_delay.
  apply Qmult_le_0_compat; [exact Hb|].
  change 0%Q with (inject_Z 0). rewrite <- Zle_Qle.
  apply Z.pow_nonneg. lia.
Qed.

Lemma sleep_limit_pos : (0 < sleep_limit)%Q.
Proof. reflexivity. Qed.

Lemma in_time_range_iff d :
  in_time_range d = true <-> (- sleep_limit <= d)%Q /\ (d < sleep_limit)%Q.
Proof.
  unfold in_time_range. rewrite andb_true_iff, negb_true_iff, Qle_bool_iff.
  split; intros [H1 H2]; (split; [exact H1|]).
  - apply Qnot_le_lt. intros H. apply Qle_bool_iff in H. congruence.
  - destruct (Qle_bool sleep_limit d) eqn:H; [|reflexivity].
    apply Qle_bool_iff in H. exfalso. exact (Qlt_not_le _ _ H2 H).
Qed.

Lemma backoff_delay_mono self a b :
  (0 <= base_delay self)%Q -> (a <= b)%Z ->
  (backoff_delay self a <= backoff_delay self b)%Q.
Proof.
  intros Hb Hab. unfold backoff_delay.
  rewrite !(Qmult_comm (base_delay self)).
  apply Qmult_le_compat_r; [|exact Hb].
  rewrite <- Zle_Qle.
  destruct (Z_lt_le_dec (a - 1) 0) as [Hneg|Hpos].
  - rewrite (Z.pow_neg_r 2 (a - 1)) by exact Hneg. apply Z.pow_nonneg. lia.
  - apply Z.pow_le_mono_r; lia.
Qed.

Lemma fits_float_pow2 k : (k <= 1023)%Z -> fits_float (2 ^ k) = true.
Proof.
  intros Hk. unfold fits_float. apply Z.ltb_lt.
  rewrite Z.abs_eq by (apply Z.pow_nonneg; lia).
  apply Z.le_lt_trans with (2 ^ 1023)%Z.
  - destruct (Z_lt_le_dec k 0) as [Hneg|Hpos].
    + rewrite (Z.pow_neg_r 2 k) by exact Hneg. apply Z.pow_nonneg. lia.
    + apply Z.pow_le_mono_r; lia.
  - apply Z.ltb_lt. vm_compute. reflexivity.
Qed.

Lemma can_wait_first E self attempt :
  (attempt <= 0)%Z -> can_wait E self attempt = true.
Proof.
  intros Ha. unfold can_wait.
  replace (0 <? attempt)%Z with false; [reflexivity|].
  symmetry. apply Z.ltb_ge. exact Ha.
Qed.

(** When [base_delay] is not negative, the longest delay of a run is
    that of its last attempt: if that one is in the range of
    [time.sleep], the attempt is not beyond the 1024th and the operating
    system refuses no sleep, every wait of the run goes through. *)
Lemma can_wait_within E self last attempt :
  (0 <= base_delay self)%Q ->
  (last <= 1024)%Z ->
  (backoff_delay self last < sleep_limit)%Q ->
  (forall delay, sleep_fault E delay = None) ->
  (attempt <= last)%Z ->
  can_wait E self attempt = true.
Proof.
  intros Hb Hlast Hlim Hos Ha. unfold can_wait.
  destruct (0 <? attempt)%Z; [|reflexivity]. cbn [negb orb].
  rewrite fits_float_pow2 by lia.
  rewrite (backoff_delay_nonneg _ _ Hb), Hos.
  rewrite (proj2 (in_time_range_iff _)); [reflexivity|].
  split.
  - apply Qle_trans with 0%Q.
    + apply Qlt_le_weak. reflexivity.
    + apply Qle_bool_iff, backoff_delay_nonneg, Hb.
  - eapply Qle_lt_trans; [|exact Hlim]. apply backoff_delay_mono; assumption.
Qed.

Lemma backoff_delay_1 self : backoff_delay self 1 = base_delay self.
Proof.
  unfold backoff_delay. destruct (base_delay self) as [n d].
  unfold Qmult. simpl. rewrite Z.mul_1_r, Pos.mul_1_r. reflexivity.
Qed.

Lemma backoff_delay_2 self : backoff_delay self 2 = (2 * base_delay self)%Q.
Proof.
  unfold backoff_delay. destruct (base_delay self) as [n d].
  unfold Qmult. simpl Qnum. simpl Qden.
  change (2 ^ (2 - 1))%Z with 2%Z.
  rewrite (Z.mul_comm n 2), Pos.mul_1_r. reflexivity.
Qed.

Lemma count_runs_after_backoff self attempt w :
  count_runs (trace (after_backoff self attempt w)) = count_runs (trace w).
Proof.
  unfold after_backoff. destruct (0 <? attempt)%Z; [|reflexivity].
  simpl. rewrite !count_runs_length, runs_of_app. simpl.
  rewrite app_nil_r. reflexivity.
Qed.

Lemma range_succ n : (0 <= n)%Z -> exists rest, range (n + 1) = 0%Z :: rest.
Proof.
  intros Hn. unfold range.
  replace (Z.to_nat (n + 1)) with (S (Z.to_nat n)) by lia.
  simpl. eauto.
Qed.

Lemma range_of_nat m :
  range (Z.of_nat m + 1) = map Z.of_nat (seq 0 (S m)).
Proof.
  unfold range. replace (Z.to_nat (Z.of_nat m + 1)) with (S m) by lia.
  reflexivity.
Qed.

Section Loop.

Variable E : env.
Variable self : ImageGenerator.
Variable cleaned_prompt : string.

Lemma try_attempt_after_backoff attempt w :
  can_wait E self attempt = true ->
  try_attempt E self cleaned_prompt attempt w
  = call_and_save E self cleaned_prompt attempt (after_backoff self attempt w).
Proof.
  unfold can_wait, try_attempt, after_backoff.
  fold (call_and_save E self cleaned_prompt attempt).
  destruct (0 <? attempt)%Z; [|reflexivity].
  cbn [negb orb]. intros Hw.
  apply andb_true_iff in Hw as [Hw Hos].
  apply andb_true_iff in Hw as [Hw Hpos].
  apply andb_true_iff in Hw as [Hfits Hrange].
  erewrite bind_ok; [reflexivity|].
  erewrite bind_ok;
    [|unfold lift, float_mul_int; rewrite Hfits;
      fold (backoff_delay self attempt); reflexivity].
  erewrite bind_ok; [|reflexivity].
  unfold sleep. rewrite Hrange, Hpos.
  destruct (sleep_fault E (backoff_delay self attempt));
    [discriminate|reflexivity].
Qed.

Lemma try_attempt_first w :
  try_attempt E self cleaned_prompt 0 w = call_and_save E self cleaned_prompt 0 w.
Proof. reflexivity. Qed.

(** How one turn of the loop ends, by what the attempt did. *)
Lemma loop_returns attempt rest w r w' :
  try_attempt E self cleaned_prompt attempt w = (Ok r, w') ->
  attempts_loop E self cleaned_prompt (attempt :: rest) w = (Ok (Some r), w').
Proof.
  intros H. cbn [attempts_loop].
  erewrite bind_ok; [|unfold attempt_of; rewrite H; reflexivity].
  reflexivity.
Qed.

Lemma loop_gives_up attempt rest w e w' :
  try_attempt E self cleaned_prompt attempt w = (Raise e, w') ->
  fst (_handle_api_error e) = false \/ attempt = max_retries self ->
  attempts_loop E self cleaned_prompt (attempt :: rest) w
  = (Raise (mk_exn APIError (snd (_handle_api_error e))),
     logged ERROR (FailedToGenerateImage (snd (_handle_api_error e))) w').
Proof.
  intros H Hstop. cbn [attempts_loop].
  erewrite bind_ok; [|unfold attempt_of; rewrite H; reflexivity].
  cbv beta iota.
  destruct (_handle_api_error e) as [should_retry msg]. simpl in *.
  replace (negb should_retry || (attempt =? max_retries self)%Z) with true.
  - reflexivity.
  - symmetry. apply orb_true_iff. destruct Hstop as [->| ->]; [auto|].
    right. apply Z.eqb_refl.
Qed.

Lemma loop_goes_on attempt rest w e w' :
  try_attempt E self cleaned_prompt attempt w = (Raise e, w') ->
  fst (_handle_api_error e) = true -> attempt <> max_retries self ->
  attempts_loop E self cleaned_prompt (attempt :: rest) w
  = attempts_loop E self cleaned_prompt rest
      (logged WARNING
         (AttemptFailed (attempt + 1) (snd (_handle_api_error e))) w').
Proof.
  intros H Hretry Hne. cbn [attempts_loop].
  erewrite bind_ok; [|unfold attempt_of; rewrite H; reflexivity].
  cbv beta iota.
  destruct (_handle_api_error e) as [should_retry msg]. simpl in *.
  subst should_retry. apply Z.eqb_neq in Hne. rewrite Hne. reflexivity.
Qed.

(** What the part after the wait does, by the remote service's answer. *)
Lemma call_raises attempt w e :
  client_run E (count_runs (trace w)) cleaned_prompt = Raise e ->
  call_and_save E self cleaned_prompt attempt w = (Raise e, emit (Ran cleaned_prompt) w).
Proof.
  intros H. unfold call_and_save.
  erewrite bind_raise; [reflexivity|]. unfold run. rewrite H. reflexivity.
Qed.

Lemma call_answers_nothing attempt w :
  client_run E (count_runs (trace w)) cleaned_prompt = Ok [] ->
  call_and_save E self cleaned_prompt attempt w = (Raise index_error, emit (Ran cleaned_prompt) w).
Proof.
  intros H. unfold call_and_save.
  erewrite bind_ok; [|unfold run; rewrite H; reflexivity].
  reflexivity.
Qed.

Lemma call_then_save_raises attempt w url urls e w' :
  client_run E (count_runs (trace w)) cleaned_prompt = Ok (url :: urls) ->
  save_image_from_url E url (output_dir self) (emit (Ran cleaned_prompt) w)
  = (Raise e, w') ->
  call_and_save E self cleaned_prompt attempt w = (Raise e, w').
Proof.
  intros H Hsave. unfold call_and_save.
  erewrite bind_ok; [|unfold run; rewrite H; reflexivity].
  erewrite bind_ok; [|reflexivity].
  erewrite bind_raise; [reflexivity|exact Hsave].
Qed.

Lemma call_and_save_prompt attempt w r w' :
  call_and_save E self cleaned_prompt attempt w = (Ok r, w') -> prompt r = cleaned_prompt.
Proof.
  unfold call_and_save, bind.
  destruct (run E cleaned_prompt w) as [[output|e] w1]; [|discriminate].
  destruct (first_item output w1) as [[image_url|e] w2]; [|discriminate].
  destruct (save_image_from_url E image_url (output_dir self) w2)
    as [[filepath|e] w3]; [|discriminate].
  simpl. intros [= <- _]. reflexivity.
Qed.

End Loop.

Lemma runs_of_after_backoff self attempt w :
  runs_of (trace (after_backoff self attempt w)) = runs_of (trace w).
Proof.
  unfold after_backoff. destruct (0 <? attempt)%Z; [|reflexivity].
  simpl. rewrite runs_of_app. simpl. apply app_nil_r.
Qed.

Lemma trace_after_attempt self cleaned_prompt attempt w :
  (trace (after_backoff self attempt w) ++ [Ran cleaned_prompt])%list
  = (trace w ++ attempt_events self cleaned_prompt attempt)%list.
Proof.
  unfold after_backoff, attempt_events.
  destruct (0 <? attempt)%Z; [|reflexivity].
  simpl trace. rewrite <- app_assoc. reflexivity.
Qed.

Lemma generate_image_validated E self p cleaned_prompt w :
  validate_prompt p = Ok cleaned_prompt ->
  generate_image E self p w
  = attempts_loop E self cleaned_prompt (range (max_retries self + 1)) w.
Proof.
  intros H. unfold generate_image.
  erewrite bind_ok; [reflexivity|]. unfold lift. rewrite H. reflexivity.
Qed.

Lemma image_save_error_unexpected e :
  exn_cls e = ImageSaveError ->
  _handle_api_error e = (false, "Unexpected error: " ++ exn_str e).
Proof. destruct e as [cls text]. simpl. intros ->. reflexivity. Qed.

(* ------------------------------------------------------------------ *)
(** ** Every call fails, retryably *)

Section AllFail.

Variable E : env.
Variable self : ImageGenerator.
Variable cleaned_prompt : string.
Variable m : nat.

Hypothesis waits :
  forall attempt, (attempt <= Z.of_nat m)%Z -> can_wait E self attempt = true.
Hypothesis failing : always_retryable E.
Hypothesis retries : max_retries self = Z.of_nat m.

Lemma failing_attempt attempt w :
  (attempt <= Z.of_nat m)%Z ->
  exists e,
    fst (_handle_api_error e) = true /\
    try_attempt E self cleaned_prompt attempt w
    = (Raise e, emit (Ran cleaned_prompt) (after_backoff self attempt w)).
Proof.
  intros Hle.
  destruct (failing (count_runs (trace (after_backoff self attempt w)))
              cleaned_prompt) as (e & He & Hretry).
  exists e. split; [exact Hretry|].
  rewrite try_attempt_after_backoff by (apply waits; exact Hle).
  apply call_raises. exact He.
Qed.

Lemma all_fail_loop j : forall k w,
  k + j = m ->
  (exists msg,
     fst (attempts_loop E self cleaned_prompt (map Z.of_nat (seq k (S j))) w)
     = Raise (mk_exn APIError msg)) /\
  trace (snd (attempts_loop E self cleaned_prompt
                (map Z.of_nat (seq k (S j))) w))
  = (trace w ++ concat (map (attempt_events self cleaned_prompt)
                            (map Z.of_nat (seq k (S j)))))%list.
Proof.
  induction j as [|j IH]; intros k w Hk.
  - destruct (failing_attempt (Z.of_nat k) w) as (e & Hretry & Htry); [lia|].
    cbn [seq map].
    rewrite (loop_gives_up E self cleaned_prompt _ _ _ _ _ Htry)
      by (right; rewrite retries; f_equal; lia).
    split; [eauto|]. cbn [snd concat]. simpl trace.
    rewrite app_nil_r. apply trace_after_attempt.
  - destruct (failing_attempt (Z.of_nat k) w) as (e & Hretry & Htry); [lia|].
    cbn [seq map].
    rewrite (loop_goes_on E self cleaned_prompt _ _ _ _ _ Htry Hretry)
      by (rewrite retries; lia).
    destruct (IH (S k)
                (logged WARNING
                   (AttemptFailed (Z.of_nat k + 1) (snd (_handle_api_error e)))
                   (emit (Ran cleaned_prompt)
                      (after_backoff self (Z.of_nat k) w))))
      as [Hmsg Htrace]; [lia|].
    cbn [seq map] in Hmsg, Htrace.
    split; [exact Hmsg|].
    rewrite Htrace. simpl trace. rewrite trace_after_attempt.
    cbn [concat]. rewrite <- !app_assoc. reflexivity.
Qed.

End AllFail.

(** C3, as amended.  Let the prompt be valid and every remote call fail
    with an error classified as retryable.  With [max_retries = 2], when
    the waits before attempts 1 and 2 go through (each delay is one
    [time.sleep] accepts: not negative, within its range, and taken by
    the operating system), [generate_image] raises an APIError after
    exactly these events, in this order: remote call, sleep of
    [base_delay], remote call, sleep of [2 * base_delay], remote call
    (three calls, two sleeps).  With any [max_retries = m >= 0], when
    the wait before each of the attempts [1, ..., m] goes through, it
    raises an APIError after attempts [0, ..., m], each a remote call,
    and each attempt [a > 0] preceded by a sleep of
    [base_delay * 2 ^ (a - 1)]. *)
Theorem retry_backoff_schedule E self p cleaned_prompt w :
  validate_prompt p = Ok cleaned_prompt ->
  always_retryable E ->
  (max_retries self = 2%Z ->
   can_wait E self 1 = true -> can_wait E self 2 = true ->
     (exists msg,
        fst (generate_image E self p w) = Raise (mk_exn APIError msg)) /\
     trace (snd (generate_image E self p w))
     = (trace w ++ [Ran cleaned_prompt;
                    Slept (base_delay self); Ran cleaned_prompt;
                    Slept (2 * base_delay self)%Q; Ran cleaned_prompt])%list /\
     runs_of (trace (snd (generate_image E self p w)))
     = (runs_of (trace w)
        ++ [cleaned_prompt; cleaned_prompt; cleaned_prompt])%list /\
     sleeps_of (trace (snd (generate_image E self p w)))
     = (sleeps_of (trace w)
        ++ [base_delay self; (2 * base_delay self)%Q])%list) /\
  (forall m : nat, max_retries self = Z.of_nat m ->
   (forall a, (0 < a <= Z.of_nat m)%Z -> can_wait E self a = true) ->
     (exists msg,
        fst (generate_image E self p w) = Raise (mk_exn APIError msg)) /\
     trace (snd (generate_image E self p w))
     = (trace w ++ concat (map (attempt_events self cleaned_prompt)
                               (range (max_retries self + 1))))%list /\
     forall a, (0 < a)%Z ->
       attempt_events self cleaned_prompt a
       = [Slept (base_delay self * inject_Z (2 ^ (a - 1)))%Q;
          Ran cleaned_prompt]).
Proof.
  intros Hvalid Hfail.
  assert (Hgen : forall m : nat, max_retries self = Z.of_nat m ->
    (forall a, (0 < a <= Z.of_nat m)%Z -> can_wait E self a = true) ->
    (exists msg,
       fst (generate_image E self p w) = Raise (mk_exn APIError msg)) /\
    trace (snd (generate_image E self p w))
    = (trace w ++ concat (map (attempt_events self cleaned_prompt)
                              (range (max_retries self + 1))))%list).
  { intros m Hm Hwaits. rewrite (generate_image_validated _ _ _ _ _ Hvalid).
    rewrite Hm, range_of_nat.
    apply (all_fail_loop E self cleaned_prompt m) with (k := 0);
      [|exact Hfail|exact Hm|reflexivity].
    intros a Ha. destruct (Z_lt_le_dec 0 a) as [Hpos|Hfirst].
    - apply Hwaits. lia.
    - apply can_wait_first, Hfirst. }
  split.
  - intros H2 Hw1 Hw2.
    destruct (Hgen 2%nat H2) as [Hmsg Htrace].
    { intros a Ha. assert (Hcases : a = 1%Z \/ a = 2%Z) by lia.
      destruct Hcases as [-> | ->]; assumption. }
    split; [exact Hmsg|]. revert Htrace. rewrite H2.
    change (range (2 + 1)) with [0; 1; 2]%Z.
    cbn [map concat]. unfold attempt_events.
    change (0 <? 0)%Z with false. change (0 <? 1)%Z with true.
    change (0 <? 2)%Z with true. cbv iota.
    rewrite backoff_delay_1, backoff_delay_2.
    cbn [app]. intros ->.
    rewrite runs_of_app, sleeps_of_app. auto.
  - intros m Hm Hwaits. destruct (Hgen m Hm Hwaits) as [Hmsg Htrace].
    split; [exact Hmsg|]. split; [exact Htrace|].
    intros a Ha. unfold attempt_events. apply Z.ltb_lt in Ha. rewrite Ha.
    reflexivity.
Qed.

Lemma rate_limited_always_retryable : always_retryable rate_limited.
Proof. intros n p. eexists. split; reflexivity. Defined.

(** C3 at the test's generator: three calls, sleeps of 0.1 and 0.2. *)
Lemma retry_backoff_schedule_witness :
  (exists msg,
     fst (generate_image rate_limited sample_generator (PyStr "test prompt")
            Sample.empty_world) = Raise (mk_exn APIError msg)) /\
  trace (snd (generate_image rate_limited sample_generator
                (PyStr "test prompt") Sample.empty_world))
  = [Ran "test prompt"; Slept (1 # 10); Ran "test prompt";
     Slept (2 * (1 # 10))%Q; Ran "test prompt"] /\
  runs_of (trace (snd (generate_image rate_limited sample_generator
                         (PyStr "test prompt") Sample.empty_world)))
  = ["test prompt"; "test prompt"; "test prompt"] /\
  sleeps_of (trace (snd (generate_image rate_limited sample_generator
                           (PyStr "test prompt") Sample.empty_world)))
  = [1 # 10; (2 * (1 # 10))%Q].
Proof.
  exact (proj1 (retry_backoff_schedule rate_limited sample_generator
                  (PyStr "test prompt") "test prompt" Sample.empty_world
                  eq_refl rate_limited_always_retryable)
           eq_refl eq_refl eq_refl).
Defined.

(** C3, as stated, fails: with [max_retries = 2], a [base_delay] of
    [1e10] seconds and a remote service that always answers with a
    rate-limit error, the sleep before the second attempt raises
    OverflowError inside the [try]; it is classified as unexpected, and
    [generate_image] raises after one remote call and no sleep. *)
Lemma retry_backoff_schedule_counterexample :
  validate_prompt (PyStr "test prompt") = Ok "test prompt" /\
  always_retryable rate_limited /\
  max_retries long_delay_generator = 2%Z /\
  (0 < base_delay long_delay_generator)%Q /\
  fst (generate_image rate_limited long_delay_generator (PyStr "test prompt")
         Sample.empty_world)
  = Raise (mk_exn APIError
             "Unexpected error: timestamp too large to convert to C _PyTime_t") /\
  trace (snd (generate_image rate_limited long_delay_generator
                (PyStr "test prompt") Sample.empty_world))
  = [Ran "test prompt"] /\
  runs_of (trace (snd (generate_image rate_limited long_delay_generator
                         (PyStr "test prompt") Sample.empty_world)))
  <> ["test prompt"; "test prompt"; "test prompt"].
Proof.
  split; [reflexivity|]. split; [apply rate_limited_always_retryable|].
  split; [reflexivity|]. split; [reflexivity|].
  split; [reflexivity|]. split; [reflexivity|].
  vm_compute. discriminate.
Qed.

(* ------------------------------------------------------------------ *)
(** ** An empty answer *)

(** C1, as amended.  When the wait before an attempt has gone through
    and the remote call of that attempt answers with an empty list,
    [output[0]] raises IndexError, which is classified as an unexpected
    error and not retried: the loop ends at once with
    APIError("Unexpected error: list index out of range"), having made
    that one remote call and fetched nothing.  In particular, so does
    [generate_image] when the first call, before which there is no wait,
    answers with an empty list. *)
Theorem empty_response_unexpected E self cleaned_prompt :
  (forall attempt rest w,
     can_wait E self attempt = true ->
     client_run E (count_runs (trace w)) cleaned_prompt = Ok [] ->
     attempts_loop E self cleaned_prompt (attempt :: rest) w
     = (Raise unexpected_index_error,
        logged ERROR (FailedToGenerateImage (exn_str unexpected_index_error))
          (emit (Ran cleaned_prompt) (after_backoff self attempt w)))) /\
  (forall p w,
     validate_prompt p = Ok cleaned_prompt ->
     (0 <= max_retries self)%Z ->
     client_run E (count_runs (trace w)) cleaned_prompt = Ok [] ->
     generate_image E self p w
     = (Raise unexpected_index_error,
        logged ERROR (FailedToGenerateImage (exn_str unexpected_index_error))
          (emit (Ran cleaned_prompt) w))).
Proof.
  split.
  - intros attempt rest w Hbase Hrun.
    apply (loop_gives_up E self cleaned_prompt attempt rest w index_error);
      [|left; reflexivity].
    rewrite try_attempt_after_backoff by exact Hbase.
    apply call_answers_nothing.
    rewrite count_runs_after_backoff. exact Hrun.
  - intros p w Hvalid Hmax Hrun.
    rewrite (generate_image_validated _ _ _ _ _ Hvalid).
    destruct (range_succ _ Hmax) as [rest ->].
    apply (loop_gives_up E self cleaned_prompt 0%Z rest w index_error);
      [|left; reflexivity].
    rewrite try_attempt_first. apply call_answers_nothing. exact Hrun.
Qed.

Lemma empty_response_unexpected_witness :
  generate_image answers_nothing sample_generator (PyStr "test prompt")
    Sample.empty_world
  = (Raise unexpected_index_error,
     logged ERROR (FailedToGenerateImage (exn_str unexpected_index_error))
       (emit (Ran "test prompt") Sample.empty_world)).
Proof.
  apply (proj2 (empty_response_unexpected answers_nothing sample_generator
                  "test prompt")).
  - reflexivity.
  - simpl. lia.
  - reflexivity.
Defined.

(** C1, as stated, fails: with an empty answer the error raised is not
    APIError("malformed response"); its text is that of the
    unexpected-error row and does not mention a malformed response. *)
Lemma empty_response_counterexample :
  client_run answers_nothing 0 "test prompt" = Ok [] /\
  fst (generate_image answers_nothing sample_generator (PyStr "test prompt")
         Sample.empty_world)
  = Raise (mk_exn APIError "Unexpected error: list index out of range") /\
  fst (generate_image answers_nothing sample_generator (PyStr "test prompt")
         Sample.empty_world)
  <> Raise (mk_exn APIError "malformed response") /\
  PyStr.contains "malformed response"
    (PyStr.lower "Unexpected error: list index out of range") = false.
Proof.
  split; [reflexivity|]. split; [reflexivity|].
  split; [|reflexivity]. vm_compute. discriminate.
Qed.

(* ------------------------------------------------------------------ *)
(** ** A failure of the persistence pipeline *)



(* ------------------------------------------------------------------ *)
(** ** The prompt of the returned record *)

Lemma try_attempt_prompt E self cleaned_prompt attempt w r w' :
  try_attempt E self cleaned_prompt attempt w = (Ok r, w') ->
  prompt r = cleaned_prompt.
Proof.
  unfold try_attempt. fold (call_and_save E self cleaned_prompt attempt).
  unfold bind at 1.
  match goal with
  | |- context [match ?x with _ => _ end] => destruct x as [[[]|e] w1]
  end; [|discriminate].
  apply call_and_save_prompt.
Qed.

Lemma attempts_loop_prompt E self cleaned_prompt attempts : forall w r,
  fst (attempts_loop E self cleaned_prompt attempts w) = Ok (Some r) ->
  prompt r = cleaned_prompt.
Proof.
  induction attempts as [|attempt rest IH]; intros w r; [discriminate|].
  destruct (try_attempt E self cleaned_prompt attempt w) as [[r'|e] w']
    eqn:Htry.
  - rewrite (loop_returns E self cleaned_prompt _ rest _ _ _ Htry).
    intros [= <-]. eapply try_attempt_prompt, Htry.
  - destruct (fst (_handle_api_error e)) eqn:Hretry.
    + destruct (Z.eq_dec attempt (max_retries self)) as [Hlast|Hmore].
      * rewrite (loop_gives_up E self cleaned_prompt _ rest _ _ _ Htry)
          by auto.
        discriminate.
      * rewrite (loop_goes_on E self cleaned_prompt _ rest _ _ _ Htry
                   Hretry Hmore).
        apply IH.
    + rewrite (loop_gives_up E self cleaned_prompt _ rest _ _ _ Htry)
        by auto.
      discriminate.
Qed.

(** C10.  When [generate_image] returns a record, its ['prompt'] entry is
    the value [validate_prompt] returned for the raw prompt: the raw
    string with the whitespace at both ends removed. *)
Theorem returned_prompt_is_cleaned E self p w r :
  fst (generate_image E self p w) = Ok (Some r) ->
  validate_prompt p = Ok (prompt r) /\
  exists raw, p = PyStr raw /\ prompt r = PyStr.strip raw.
Proof.
  intros H.
  destruct (validate_prompt p) as [cleaned_prompt|e] eqn:Hvalid.
  - rewrite (generate_image_validated _ _ _ _ _ Hvalid) in H.
    apply attempts_loop_prompt in H. subst cleaned_prompt.
    split; [reflexivity|].
    destruct (validate_ok_inv _ _ Hvalid) as (raw & Hp & Hstrip & _).
    exists raw. auto.
  - unfold generate_image in H.
    erewrite bind_raise in H; [discriminate|].
    unfold lift. rewrite Hvalid. reflexivity.
Qed.

(** C10 at the raw prompt ["  test prompt  "]. *)
Lemma returned_prompt_is_cleaned_witness :
  fst (generate_image answers_url sample_generator (PyStr "  test prompt  ")
         Sample.empty_world)
  = Ok (Some (mk_generated Sample.path "test prompt")) /\
  validate_prompt (PyStr "  test prompt  ") = Ok "test prompt" /\
  exists raw, PyStr "  test prompt  " = PyStr raw /\
              "test prompt" = PyStr.strip raw.
Proof.
  split; [reflexivity|].
  apply (returned_prompt_is_cleaned answers_url sample_generator
           (PyStr "  test prompt  ") Sample.empty_world
           (mk_generated Sample.path "test prompt")).
  reflexivity.
Defined.

(* ================================================================== *)
(** * Further properties of utils.py *)

(** How [bind] and [try_except] can have run, from how they ended. *)
Lemma bind_ok_inv {A B} (m : M A) (k : A -> M B) w b w' :
  bind m k w = (Ok b, w') ->
  exists a w1, m w = (Ok a, w1) /\ k a w1 = (Ok b, w').
Proof.
  unfold bind. destruct (m w) as [[a|e] w1]; [eauto|discriminate].
Qed.

Lemma bind_raise_inv {A B} (m : M A) (k : A -> M B) w e w' :
  bind m k w = (Raise e, w') ->
  m w = (Raise e, w') \/ exists a w1, m w = (Ok a, w1) /\ k a w1 = (Raise e, w').
Proof.
  unfold bind. destruct (m w) as [[a|e0] w1]; [eauto|]. intros [= <- <-]. auto.
Qed.

Lemma try_inv {A} (m : M A) (h : exn -> M A) w r w' :
  try_except m h w = (r, w') ->
  (exists a, r = Ok a /\ m w = (Ok a, w')) \/
  (exists e w1, m w = (Raise e, w1) /\ h e w1 = (r, w')).
Proof.
  unfold try_except. destruct (m w) as [[a|e] w1].
  - intros [= <- <-]. eauto.
  - eauto.
Qed.

Section Checks.

Variable E : env.

(** X1.  [check_disk_space] never raises and changes neither a file nor
    the trace.  When the usage can be read its answer is
    [free > required_bytes], so free space equal to the requirement is
    not enough, and the world is untouched; when reading raises, the
    answer is [True] and the exception is logged as a warning. *)
Theorem check_disk_space_never_raises filepath required_bytes w :
  (exists enough,
     fst (check_disk_space E filepath required_bytes w) = Ok enough) /\
  files (snd (check_disk_space E filepath required_bytes w)) = files w /\
  trace (snd (check_disk_space E filepath required_bytes w)) = trace w /\
  (forall total used free,
     disk_usage E (Path.dirname filepath) = Ok (total, used, free) ->
     check_disk_space E filepath required_bytes w
     = (Ok (bool_decide (required_bytes < free)%Z), w)) /\
  (forall total used,
     disk_usage E (Path.dirname filepath)
     = Ok (total, used, required_bytes) ->
     fst (check_disk_space E filepath required_bytes w) = Ok false) /\
  (forall e,
     disk_usage E (Path.dirname filepath) = Raise e ->
     check_disk_space E filepath required_bytes w
     = (Ok true, logged WARNING (FailedToCheckDiskSpace (exn_str e)) w)).
Proof.
  assert (Hread : forall total used free,
    disk_usage E (Path.dirname filepath) = Ok (total, used, free) ->
    check_disk_space E filepath required_bytes w
    = (Ok (bool_decide (required_bytes < free)%Z), w)).
  { intros total used free H.
    unfold check_disk_space, try_except, bind, lift. rewrite H. simpl.
    unfold ret. do 2 f_equal.
    destruct (Z.ltb_spec required_bytes free).
    - rewrite bool_decide_eq_true_2 by assumption. reflexivity.
    - rewrite bool_decide_eq_false_2 by lia. reflexivity. }
  split; [|split; [|split; [|split; [|split]]]].
  - destruct (check_disk_space_returns E filepath required_bytes w)
      as (enough & w' & ->). eauto.
  - apply keeps_files_check_disk_space.
  - apply keeps_trace_check_disk_space.
  - exact Hread.
  - intros total used H. rewrite (Hread _ _ _ H). simpl.
    rewrite bool_decide_eq_false_2 by lia. reflexivity.
  - intros e H.
    unfold check_disk_space, try_except, bind, lift. rewrite H. reflexivity.
Qed.


End Checks.

(* ------------------------------------------------------------------ *)
(** ** The frame and the trace of [save_image_from_url] *)

Lemma keeps_through {A X Y} (f : world -> X) (g : X -> Y) (m : M A) :
  keeps f m -> keeps (fun w => g (f w)) m.
Proof. intros H w. rewrite H. reflexivity. Qed.

Section SaveFrame.

Variable E : env.

Lemma keeps_files_get url : keeps files (get E url).
Proof. intros w. reflexivity. Qed.

Lemma keeps_other_copy2 src dst other :
  other <> dst -> keeps (fun w => files w !! other) (copy2 E src dst).
Proof.
  intros Hne w. unfold copy2.
  destruct (copy2_fault E (files w) src dst) as [[e [data|]]|].
  - simpl. apply lookup_insert_ne. congruence.
  - reflexivity.
  - destruct (files w !! src); [|reflexivity].
    simpl. apply lookup_insert_ne. congruence.
Qed.

Lemma keeps_other_create_backup p other :
  other <> backup_of p ->
  keeps (fun w => files w !! other) (create_backup E p).
Proof.
  intros Hne. unfold create_backup. fold (backup_of p).
  apply keeps_bind; [apply keeps_through, keeps_files_path_exists|].
  intros found. destruct (negb found); [apply keeps_ret|].
  apply keeps_try.
  - apply keeps_bind; [apply keeps_other_copy2, Hne|].
    intros _. apply keeps_ret.
  - intros e. apply keeps_bind;
      [apply keeps_through, keeps_files_logger|intros _; apply keeps_ret].
Qed.

Lemma keeps_other_save img p other :
  other <> p -> keeps (fun w => files w !! other) (save E img p).
Proof.
  intros Hne w. unfold save.
  destruct (image_save E (files w) img p) as [data|e [data|]]; simpl;
    try reflexivity; apply lookup_insert_ne; congruence.
Qed.


(** What the part of the pipeline that follows the download leaves of
    the trace: all of it. *)
Lemma keeps_trace_after_get output_dir resp :
  keeps trace
    (raise_for_status resp ;;;
     image <- try_except
                (Image_open E (content resp))
                (fun e =>
                   if isinstance e UnidentifiedImageError then
                     raise (mk_exn ImageSaveError
                                   "Downloaded data is not a valid image")
                   else raise e) ;;
     valid <- validate_image E image ;;
     if negb valid then
       raise (mk_exn ImageSaveError "Image validation failed")
     else
       found <- path_exists (image_filepath E output_dir) ;;
       (if found then
          backup_path <- create_backup E (image_filepath E output_dir) ;;
          match backup_path with
          | Some p => logger INFO (CreatedBackupAt p)
          | None => ret tt
          end
        else ret tt) ;;;
       image_copy <- Image_open E (content resp) ;;
       save E image_copy (image_filepath E output_dir) ;;;
       logger INFO (SuccessfullySavedImageTo (image_filepath E output_dir)) ;;;
       ret (image_filepath E output_dir)).
Proof.
  pose proof (keeps_trace_validate_image E).
  pose proof (keeps_trace_create_backup E).
  pose proof (keeps_trace_save E).
  unfold raise_for_status, Image_open. keeps_auto.
Qed.

Lemma save_image_from_url_trace url output_dir w :
  trace (snd (save_image_from_url E url output_dir w)) = trace w \/
  trace (snd (save_image_from_url E url output_dir w))
  = (trace w ++ [Fetched url])%list.
Proof.
  unfold save_image_from_url.
  destruct (check_disk_space_returns E (image_filepath E output_dir)
              default_required_bytes w) as (enough & w1 & Hc).
  rewrite (bind_ok _ _ _ _ _ Hc).
  assert (H1 : trace w1 = trace w).
  { pose proof (keeps_trace_check_disk_space E (image_filepath E output_dir)
                  default_required_bytes w) as H.
    rewrite Hc in H. exact H. }
  destruct enough; [right|left; simpl; exact H1].
  change (negb true) with false. cbv iota.
  match goal with
  | |- context [try_except ?body ?h w1] =>
      destruct (try_except body h w1) as [r w'] eqn:Htry
  end.
  apply try_inv in Htry.
  assert (Hbody : forall r0 w0,
    (response <- get E url ;;
     raise_for_status response ;;;
     image <- try_except
                (Image_open E (content response))
                (fun e =>
                   if isinstance e UnidentifiedImageError then
                     raise (mk_exn ImageSaveError
                                   "Downloaded data is not a valid image")
                   else raise e) ;;
     valid <- validate_image E image ;;
     if negb valid then
       raise (mk_exn ImageSaveError "Image validation failed")
     else
       found <- path_exists (image_filepath E output_dir) ;;
       (if found then
          backup_path <- create_backup E (image_filepath E output_dir) ;;
          match backup_path with
          | Some p => logger INFO (CreatedBackupAt p)
          | None => ret tt
          end
        else ret tt) ;;;
       image_copy <- Image_open E (content response) ;;
       save E image_copy (image_filepath E output_dir) ;;;
       logger INFO (SuccessfullySavedImageTo (image_filepath E output_dir)) ;;;
       ret (image_filepath E output_dir)) w1 = (r0, w0) ->
    trace w0 = (trace w ++ [Fetched url])%list).
  { intros r0 w0. unfold bind at 1, get.
    destruct (requests_get E url) as [resp|e].
    - intros Hrest.
      pose proof (keeps_trace_after_get output_dir resp
                    (emit (Fetched url) w1)) as Hk.
      rewrite Hrest in Hk. simpl in Hk. rewrite Hk, H1. reflexivity.
    - intros [= _ <-]. simpl. rewrite H1. reflexivity. }
  simpl snd.
  destruct Htry as [(a & _ & Hb)|(e & w2 & Hb & Hh)].
  - apply (Hbody _ _ Hb).
  - apply Hbody in Hb.
    destruct (isinstance e RequestException);
      [|destruct (isinstance e OSError)];
      injection Hh as _ <-; exact Hb.
Qed.

(** X4.  [save_image_from_url] makes at most one download, of the URL it
    was given, and does nothing else the trace records: no remote call,
    no sleep. *)
Theorem save_fetches_at_most_once url output_dir w :
  (trace (snd (save_image_from_url E url output_dir w)) = trace w \/
   trace (snd (save_image_from_url E url output_dir w))
   = (trace w ++ [Fetched url])%list) /\
  runs_of (trace (snd (save_image_from_url E url output_dir w)))
  = runs_of (trace w) /\
  sleeps_of (trace (snd (save_image_from_url E url output_dir w)))
  = sleeps_of (trace w).
Proof.
  split; [apply save_image_from_url_trace|].
  destruct (save_image_from_url_trace url output_dir w) as [-> | ->].
  - auto.
  - rewrite runs_of_app, sleeps_of_app. simpl. rewrite !app_nil_r. auto.
Qed.

End SaveFrame.

(* ------------------------------------------------------------------ *)
(** ** How [save_image_from_url] can end *)

Section SaveOutcomes.

Variable E : env.

Lemma raise_for_status_inv resp w w' :
  raise_for_status resp w = (Ok tt, w') -> status_ok resp /\ w' = w.
Proof.
  unfold raise_for_status, status_ok.
  destruct ((400 <=? status_code resp) && (status_code resp <? 600))%Z;
    [discriminate|].
  intros [= <-]. auto.
Qed.

Lemma validate_image_inv img w valid w' :
  validate_image E img w = (Ok valid, w') ->
  (valid = true /\ image_verify E img = None /\ w' = w) \/
  (valid = false /\ exists e, image_verify E img = Some e).
Proof.
  unfold validate_image, verify.
  destruct (image_verify E img) as [e|].
  - intros [= <- _]. right. eauto.
  - intros [= <- <-]. left. auto.
Qed.

Lemma save_inv img p w w' :
  save E img p w = (Ok tt, w') ->
  exists data, image_save E (files w) img p = Written data /\
               w' = with_files (insert p data) w.
Proof.
  unfold save. destruct (image_save E (files w) img p) as [data|e [data|]].
  - intros [= <-]. eauto.
  - discriminate.
  - discriminate.
Qed.

(** The backup step changes no file, or [<path>.backup] only. *)
Lemma create_backup_files p w :
  files (snd (create_backup E p w)) = files w \/
  exists data,
    files (snd (create_backup E p w)) = <[backup_of p := data]> (files w).
Proof.
  destruct (files w !! p) as [old|] eqn:Hold.
  - destruct (copy2_fault E (files w) p (backup_of p)) as [[e residue]|]
      eqn:Hc.
    + rewrite (create_backup_failed E _ _ _ _ _ Hold Hc). simpl.
      destruct residue as [data|]; [right; exists data|left]; reflexivity.
    + rewrite (create_backup_copied E _ _ _ Hold Hc).
      right. exists old. reflexivity.
  - left. unfold create_backup, bind, path_exists. rewrite Hold.
    reflexivity.
Qed.

(** A call that returns has passed every stage; [present] are the files
    [Image.save] found: those the call started from, but for what the
    backup step did to [<path>.backup] when the destination existed. *)
Lemma save_ok_inv url output_dir w p w' :
  save_image_from_url E url output_dir w = (Ok p, w') ->
  p = image_filepath E output_dir /\
  check_passes E output_dir w /\
  exists resp img data present,
    requests_get E url = Ok resp /\ status_ok resp /\
    image_open E (content resp) = Ok img /\
    image_verify E img = None /\
    image_save E present img p = Written data /\
    files w' !! p = Some data /\
    (files w !! p = None -> present = files w) /\
    (present = files w \/
     exists old, present = <[backup_of p := old]> (files w)).
Proof.
  unfold save_image_from_url, check_passes.
  destruct (check_disk_space_returns E (image_filepath E output_dir)
              default_required_bytes w) as (enough & w1 & Hc).
  pose proof (keeps_files_check_disk_space E (image_filepath E output_dir)
                default_required_bytes w) as Hfiles.
  rewrite (bind_ok _ _ _ _ _ Hc), Hc. rewrite Hc in Hfiles. simpl in Hfiles.
  destruct enough; [|discriminate].
  change (negb true) with false. cbv iota. intros H.
  apply try_inv in H as [(a & [= <-] & H)|(e & w2 & _ & H)].
  2:{ destruct (isinstance e RequestException);
        [|destruct (isinstance e OSError)]; discriminate. }
  apply bind_ok_inv in H as (resp & w2 & Hget & H).
  unfold get in Hget. injection Hget as Hget <-.
  apply bind_ok_inv in H as ([] & w3 & Hstatus & H).
  apply raise_for_status_inv in Hstatus as [Hstatus ->].
  apply bind_ok_inv in H as (img & w4 & Hopen & H).
  apply try_inv in Hopen as [(a & [= <-] & Hopen)|(e & w5 & _ & Hopen)].
  2:{ destruct (isinstance e UnidentifiedImageError); discriminate. }
  unfold Image_open, lift in Hopen. injection Hopen as Hopen <-.
  apply bind_ok_inv in H as (valid & w5 & Hvalid & H).
  apply validate_image_inv in Hvalid
    as [(-> & Hverify & ->)|(-> & _)]; [|discriminate].
  change (negb true) with false in H. cbv iota in H.
  apply bind_ok_inv in H as (found & w6 & Hfound & H).
  unfold path_exists in Hfound. injection Hfound as <- <-.
  apply bind_ok_inv in H as ([] & w7 & Hbackup & H).
  apply bind_ok_inv in H as (img' & w8 & Hopen' & H).
  unfold Image_open, lift in Hopen'. rewrite Hopen in Hopen'.
  injection Hopen' as <- <-.
  apply bind_ok_inv in H as ([] & w9 & Hsave & H).
  apply save_inv in Hsave as (data & Hsave & ->).
  apply bind_ok_inv in H as ([] & w10 & Hlog & H).
  unfold logger in Hlog. injection Hlog as <-.
  unfold ret in H. injection H as <- <-.
  split; [reflexivity|]. split; [reflexivity|].
  exists resp, img, data, (files w7). repeat (split; [assumption|]).
  split; [simpl; apply lookup_insert_eq|].
  simpl files in Hbackup. rewrite Hfiles in Hbackup.
  split.
  - intros Hnone. rewrite Hnone in Hbackup.
    rewrite bool_decide_eq_false_2 in Hbackup
      by (intros [x Hx]; discriminate).
    unfold ret in Hbackup. injection Hbackup as <-.
    simpl. exact Hfiles.
  - destruct (bool_decide (is_Some (files w !! image_filepath E output_dir))).
    + apply bind_ok_inv in Hbackup as (o & w11 & Hcreate & Hlog).
      assert (Hsame : files w7 = files w11).
      { destruct o; unfold logger, ret in Hlog; injection Hlog as <-;
          reflexivity. }
      rewrite Hsame.
      pose proof (create_backup_files (image_filepath E output_dir)
                    (emit (Fetched url) w1)) as Hb.
      rewrite Hcreate in Hb. simpl in Hb. rewrite Hfiles in Hb. exact Hb.
    + unfold ret in Hbackup. injection Hbackup as <-.
      left. simpl. exact Hfiles.
Qed.

(** X5.  When [save_image_from_url] returns, it returns the timestamped
    path in the output directory, and that file exists: it holds the
    bytes [Image.save] wrote for the image opened from the downloaded
    body, which passed [raise_for_status] and [verify]. *)
Theorem save_returns_existing_file url output_dir w p :
  fst (save_image_from_url E url output_dir w) = Ok p ->
  p = image_filepath E output_dir /\
  is_Some (files (snd (save_image_from_url E url output_dir w)) !! p) /\
  exists resp img data present,
    requests_get E url = Ok resp /\ status_ok resp /\
    image_open E (content resp) = Ok img /\
    image_verify E img = None /\
    image_save E present img p = Written data /\
    files (snd (save_image_from_url E url output_dir w)) !! p = Some data.
Proof.
  intros H.
  destruct (save_image_from_url E url output_dir w) as [r w'] eqn:Hrun.
  simpl in H. subst r.
  destruct (save_ok_inv _ _ _ _ _ Hrun)
    as (Hp & _ & resp & img & data & present
        & Hget & Hst & Hopen & Hver & Hsave & Hf & _ & _).
  split; [exact Hp|]. simpl. split; [rewrite Hf; eauto|].
  exists resp, img, data, present.
  repeat (split; [assumption|]). assumption.
Qed.

(** X6.  Every exception [save_image_from_url] raises is an
    ImageSaveError, and its text is the disk-space message or starts
    with one of the three prefixes of the outer handlers. *)
Theorem save_raises_image_save_error_only url output_dir w e :
  fst (save_image_from_url E url output_dir w) = Raise e ->
  exn_cls e = ImageSaveError /\
  (exn_str e = "Insufficient disk space for saving the image" \/
   exists text,
     exn_str e = "Failed to download image: " ++ text \/
     exn_str e = "Failed to save image: " ++ text \/
     exn_str e = "Unexpected error while saving image: " ++ text).
Proof.
  unfold save_image_from_url.
  destruct (check_disk_space_returns E (image_filepath E output_dir)
              default_required_bytes w) as (enough & w1 & Hc).
  rewrite (bind_ok _ _ _ _ _ Hc).
  destruct enough.
  - change (negb true) with false. cbv iota.
    match goal with
    | |- context [try_except ?body ?h w1] =>
        destruct (try_except body h w1) as [r w'] eqn:Htry
    end.
    simpl. intros ->.
    apply try_inv in Htry as [(a & [=] & _)|(e0 & w2 & _ & Hh)].
    destruct (isinstance e0 RequestException);
      [|destruct (isinstance e0 OSError)];
      injection Hh as <- _; (split; [reflexivity|]); right;
      exists (exn_str e0); auto.
  - simpl. intros [= <-]. auto.
Qed.

End SaveOutcomes.


(** X5 at a URL that serves a PNG. *)
Lemma save_returns_existing_file_witness :
  Sample.path = image_filepath (Sample.healthy Sample.png_bytes []) Sample.dir /\
  is_Some (files (snd (save_image_from_url
                         (Sample.healthy Sample.png_bytes [])
                         Sample.url Sample.dir Sample.empty_world))
             !! Sample.path).
Proof.
  destruct (save_returns_existing_file (Sample.healthy Sample.png_bytes [])
              Sample.url Sample.dir Sample.empty_world Sample.path eq_refl)
    as (Hp & Hfile & _).
  split; [exact Hp|exact Hfile].
Defined.

(** X6 at a host that cannot be reached: the ConnectionError of
    [requests.get] reaches the caller as an ImageSaveError. *)
Lemma save_raises_image_save_error_only_witness :
  fst (save_image_from_url unreachable Sample.url Sample.dir
         Sample.empty_world)
  = Raise (mk_exn ImageSaveError "Failed to download image: Download failed") /\
  exn_cls (mk_exn ImageSaveError "Failed to download image: Download failed")
  = ImageSaveError.
Proof.
  split; [reflexivity|].
  apply (save_raises_image_save_error_only unreachable Sample.url Sample.dir
           Sample.empty_world
           (mk_exn ImageSaveError "Failed to download image: Download failed")
           eq_refl).
Defined.

(* ------------------------------------------------------------------ *)
(** ** The stages of [save_image_from_url], one failing at a time *)

Section SaveStages.

Variable E : env.
Variables (url output_dir : string) (w : world).

Let filepath := image_filepath E output_dir.

(** X7.  Once the disk check has let the call through, a
    RequestException raised by [requests.get], and a response whose status
    is in 400..599, both end the call with ImageSaveError("Failed to
    download image: ...") carrying the text of the failure; one download
    was attempted and no file has changed. *)
Theorem download_failure_reported :
  check_passes E output_dir w ->
  (forall e,
     requests_get E url = Raise e ->
     isinstance e RequestException = true ->
     save_image_from_url E url output_dir w
     = (Raise (mk_exn ImageSaveError
                 ("Failed to download image: " ++ exn_str e)),
        emit (Fetched url) (checked E output_dir w))) /\
  (forall resp,
     requests_get E url = Ok resp ->
     (400 <= status_code resp < 600)%Z ->
     save_image_from_url E url output_dir w
     = (Raise (mk_exn ImageSaveError
                 ("Failed to download image: " ++ http_error_msg resp)),
        emit (Fetched url) (checked E output_dir w))) /\
  files (emit (Fetched url) (checked E output_dir w)) = files w.
Proof.
  intros Hcheck. split; [|split].
  - intros e Hget Hcls. unfold save_image_from_url. fold filepath.
    rewrite (save_after_check E output_dir w Hcheck).
    erewrite try_raise; cycle 1.
    { erewrite bind_raise; [reflexivity|].
      unfold get. rewrite Hget. reflexivity. }
    rewrite Hcls. reflexivity.
  - intros resp Hget [Hlo Hhi]. unfold save_image_from_url. fold filepath.
    rewrite (save_after_check E output_dir w Hcheck).
    erewrite try_raise; cycle 1.
    { rewrite (bind_ok _ _ _ _ _ (get_ok E _ _ _ Hget)).
      erewrite bind_raise; [reflexivity|].
      unfold raise_for_status.
      apply Z.leb_le in Hlo. apply Z.ltb_lt in Hhi. rewrite Hlo, Hhi.
      reflexivity. }
    reflexivity.
  - simpl. apply files_checked.
Qed.

(** X8.  When [image.verify()] raises, the call ends with
    ImageSaveError("Unexpected error while saving image: Image validation
    failed"); the exception of [verify] is logged as an error, and no file
    has changed. *)
Theorem failed_verification_reported resp img e :
  check_passes E output_dir w ->
  requests_get E url = Ok resp ->
  status_ok resp ->
  image_open E (content resp) = Ok img ->
  image_verify E img = Some e ->
  save_image_from_url E url output_dir w
  = (Raise (mk_exn ImageSaveError
              "Unexpected error while saving image: Image validation failed"),
     logged ERROR (ImageValidationFailed (exn_str e))
       (emit (Fetched url) (checked E output_dir w))) /\
  files (snd (save_image_from_url E url output_dir w)) = files w.
Proof.
  intros Hcheck Hget Hstatus Hopen Hverify.
  assert (Hrun : save_image_from_url E url output_dir w
    = (Raise (mk_exn ImageSaveError
                "Unexpected error while saving image: Image validation failed"),
       logged ERROR (ImageValidationFailed (exn_str e))
         (emit (Fetched url) (checked E output_dir w)))).
  { unfold save_image_from_url. fold filepath.
    rewrite (save_after_check E output_dir w Hcheck).
    erewrite try_raise; cycle 1.
    { rewrite (bind_ok _ _ _ _ _ (get_ok E _ _ _ Hget)).
      rewrite (bind_ok _ _ _ _ _ (raise_for_status_ok _ _ Hstatus)).
      erewrite bind_ok; [|apply try_ok, Image_open_ok, Hopen].
      erewrite bind_ok; cycle 1.
      { unfold validate_image, verify. rewrite Hverify. reflexivity. }
      reflexivity. }
    reflexivity. }
  rewrite Hrun. split; [reflexivity|]. simpl. apply files_checked.
Qed.

(** X9.  When the destination exists, the copy to [.backup] succeeds and
    [Image.save] then raises an OSError, the call ends with
    ImageSaveError("Failed to save image: ...") and the backup holds the
    content the destination had before the call. *)
Theorem backup_survives_failed_write resp img old e residue :
  check_passes E output_dir w ->
  requests_get E url = Ok resp ->
  status_ok resp ->
  image_open E (content resp) = Ok img ->
  image_verify E img = None ->
  files w !! filepath = Some old ->
  copy2_fault E (files w) filepath (backup_of filepath) = None ->
  image_save E (<[backup_of filepath := old]> (files w)) img filepath
  = SaveFailed e residue ->
  isinstance e RequestException = false ->
  isinstance e OSError = true ->
  fst (save_image_from_url E url output_dir w)
  = Raise (mk_exn ImageSaveError ("Failed to save image: " ++ exn_str e)) /\
  files (snd (save_image_from_url E url output_dir w)) !! backup_of filepath
  = Some old.
Proof.
  intros Hcheck Hget Hstatus Hopen Hverify Hold Hcopy Hsave Hnotreq Hos.
  assert (Hfiles : files (emit (Fetched url) (checked E output_dir w))
                   = files w).
  { simpl files. apply files_checked. }
  assert (Hold' : files (emit (Fetched url) (checked E output_dir w))
                    !! filepath = Some old).
  { rewrite Hfiles. exact Hold. }
  rewrite <- Hfiles in Hcopy.
  assert (Hfail : forall w0,
    files w0 = <[backup_of filepath := old]> (files w) ->
    save E img filepath w0
    = (Raise e, match residue with
                | Some data => with_files (insert filepath data) w0
                | None => w0
                end)).
  { intros w0 Hw0. unfold save. rewrite Hw0, Hsave.
    destruct residue; reflexivity. }
  assert (Hrun : exists w',
    save_image_from_url E url output_dir w
    = (Raise (mk_exn ImageSaveError ("Failed to save image: " ++ exn_str e)),
       w') /\
    files w' !! backup_of filepath = Some old).
  { unfold save_image_from_url. fold filepath.
    rewrite (save_after_check E output_dir w Hcheck).
    eexists. split.
    - erewrite try_raise; cycle 1.
      { rewrite (bind_ok _ _ _ _ _ (get_ok E _ _ _ Hget)).
        rewrite (bind_ok _ _ _ _ _ (raise_for_status_ok _ _ Hstatus)).
        erewrite bind_ok; [|apply try_ok, Image_open_ok, Hopen].
        rewrite (bind_ok _ _ _ _ _ (validate_image_ok E _ _ Hverify)).
        change (negb true) with false. cbv iota.
        rewrite (bind_ok _ _ _ _ _ (path_exists_found _ _ _ Hold')).
        cbv iota.
        erewrite bind_ok; cycle 1.
        { rewrite (bind_ok _ _ _ _ _
                     (create_backup_copied E _ _ _ Hold' Hcopy)).
          reflexivity. }
        erewrite bind_ok; [|apply Image_open_ok, Hopen].
        erewrite bind_raise; [reflexivity|]. apply Hfail.
        unfold logged, with_files. cbn [files]. rewrite Hfiles.
        reflexivity. }
      rewrite Hnotreq, Hos. reflexivity.
    - destruct residue as [data|]; simpl.
      + rewrite lookup_insert_ne by apply not_eq_sym, backup_of_differs.
        apply lookup_insert_eq.
      + apply lookup_insert_eq. }
  destruct Hrun as (w' & -> & Hbackup). auto.
Qed.


End SaveStages.

(** X7 at a host that cannot be reached and at a URL answered with 404. *)
Lemma download_failure_reported_witness :
  fst (save_image_from_url unreachable Sample.url Sample.dir
         Sample.empty_world)
  = Raise (mk_exn ImageSaveError "Failed to download image: Download failed") /\
  fst (save_image_from_url not_found Sample.url Sample.dir Sample.empty_world)
  = Raise (mk_exn ImageSaveError
             "Failed to download image: 404 Client Error: Not Found").
Proof.
  split.
  - rewrite (proj1 (download_failure_reported unreachable Sample.url
                      Sample.dir Sample.empty_world eq_refl)
               (mk_exn ConnectionError "Download failed") eq_refl eq_refl).
    reflexivity.
  - rewrite (proj1 (proj2 (download_failure_reported not_found Sample.url
                             Sample.dir Sample.empty_world eq_refl))
               (mk_response 404 "404 Client Error: Not Found" []) eq_refl
               ltac:(simpl; lia)).
    reflexivity.
Defined.

(** X8 at an image whose [verify] raises, as in [test_validate_image]. *)
Lemma failed_verification_reported_witness :
  fst (save_image_from_url corrupted Sample.url Sample.dir
         Sample.occupied_world)
  = Raise (mk_exn ImageSaveError
             "Unexpected error while saving image: Image validation failed") /\
  files (snd (save_image_from_url corrupted Sample.url Sample.dir
                Sample.occupied_world))
  = files Sample.occupied_world.
Proof.
  destruct (failed_verification_reported corrupted Sample.url Sample.dir
              Sample.occupied_world
              (mk_response 200 "" Sample.png_bytes)
              (mk_image Sample.png_bytes)
              (mk_exn Exception "Corrupted image")
              eq_refl eq_refl eq_refl eq_refl eq_refl) as [Hrun Hfiles].
  split; [rewrite Hrun; reflexivity|exact Hfiles].
Defined.

(** X9 at a disk that fills up while the destination is rewritten. *)
Lemma backup_survives_failed_write_witness :
  fst (save_image_from_url disk_fills_up Sample.url Sample.dir
         Sample.occupied_world)
  = Raise (mk_exn ImageSaveError
             "Failed to save image: No space left on device") /\
  files (snd (save_image_from_url disk_fills_up Sample.url Sample.dir
                Sample.occupied_world)) !! backup_of Sample.path
  = Some Sample.old_bytes.
Proof.
  apply (backup_survives_failed_write disk_fills_up Sample.url Sample.dir
           Sample.occupied_world
           (mk_response 200 "" Sample.png_bytes)
           (mk_image Sample.png_bytes) Sample.old_bytes
           (mk_exn OSError "No space left on device") (Some []));
    reflexivity.
Defined.


(* ------------------------------------------------------------------ *)
(** ** The destination path *)

Section DestinationPath.

Import Path.

Lemma has_sep_app s t : has_sep (s ++ t) = has_sep s || has_sep t.
Proof.
  induction s as [|c s IH]; [reflexivity|].
  rewrite PyStrFacts.append_cons. simpl. rewrite IH. apply orb_assoc.
Qed.

Lemma head_no_sep f : has_sep f = false -> head f = "".
Proof. destruct f as [|c f]; [reflexivity|]. simpl. intros ->. reflexivity. Qed.

Lemma head_before_name a f :
  has_sep f = false -> head (a ++ String sep f) = a ++ String sep "".
Proof.
  intros Hf. induction a as [|c a IH].
  - rewrite !PyStrFacts.append_nil. cbn [head has_sep].
    rewrite Ascii.eqb_refl. simpl. rewrite (head_no_sep f Hf). reflexivity.
  - rewrite !PyStrFacts.append_cons. cbn [head].
    replace (has_sep (String c (a ++ String sep f))) with true.
    + rewrite IH. reflexivity.
    + symmetry. cbn [has_sep]. rewrite has_sep_app. cbn [has_sep].
      rewrite Ascii.eqb_refl. simpl. rewrite !orb_true_r. reflexivity.
Qed.

Lemma all_sep_before_sep a :
  a <> "" -> ends_with_sep a = false -> all_sep (a ++ String sep "") = false.
Proof.
  induction a as [|c a IH]; [congruence|]. intros _ Hend.
  rewrite PyStrFacts.append_cons. cbn [all_sep].
  destruct a as [|d a].
  - simpl in Hend. rewrite Hend. reflexivity.
  - rewrite IH; [apply andb_false_r|congruence|exact Hend].
Qed.

Lemma rstrip_sep_before_sep a :
  a <> "" -> ends_with_sep a = false -> rstrip_sep (a ++ String sep "") = a.
Proof.
  induction a as [|c a IH]; [congruence|]. intros _ Hend.
  rewrite PyStrFacts.append_cons. cbn [rstrip_sep].
  replace (all_sep (String c (a ++ String sep ""))) with false.
  - f_equal. destruct a as [|d a].
    + reflexivity.
    + apply IH; [congruence|exact Hend].
  - symmetry.
    apply (all_sep_before_sep (String c a)); [congruence|exact Hend].
Qed.

(** X11.  The destination is the file name
    [generated_image_<timestamp>.png], joined to the output directory
    with one [/] unless the directory is empty or already ends in one.
    For a directory that is not empty and does not end in [/], and a
    timestamp without [/], the directory whose free space is checked is
    the output directory itself. *)
Theorem destination_in_output_dir E output_dir :
  (exists prefix,
     image_filepath E output_dir
     = prefix ++ "generated_image_" ++ now_stamp E ++ ".png" /\
     (prefix = output_dir \/ prefix = output_dir ++ "/")) /\
  (output_dir <> "" -> ends_with_sep output_dir = false ->
   has_sep (now_stamp E) = false ->
   dirname (image_filepath E output_dir) = output_dir).
Proof.
  unfold image_filepath.
  change ("generated_image_" ++ now_stamp E ++ ".png")
    with (String "g" ("enerated_image_" ++ now_stamp E ++ ".png")).
  cbn [join].
  change (Ascii.eqb "g" sep) with false. cbv iota.
  split.
  - destruct (String.eqb output_dir "" || ends_with_sep output_dir).
    + exists output_dir. auto.
    + exists (output_dir ++ "/"). split; [|auto].
      generalize (String "g" ("enerated_image_" ++ now_stamp E ++ ".png")).
      intros name. induction output_dir as [|c a IH]; [reflexivity|].
      rewrite !PyStrFacts.append_cons. f_equal. exact IH.
  - intros Hne Hend Hstamp.
    destruct (String.eqb_spec output_dir "") as [|_]; [contradiction|].
    rewrite Hend. simpl orb. cbv iota.
    assert (Hname : has_sep
              (String "g" ("enerated_image_" ++ now_stamp E ++ ".png"))
            = false).
    { cbn [has_sep]. rewrite has_sep_app, has_sep_app, Hstamp. reflexivity. }
    unfold dirname. rewrite (head_before_name _ _ Hname).
    rewrite (all_sep_before_sep _ Hne Hend).
    replace (String.eqb (output_dir ++ String sep "") "") with false.
    + apply rstrip_sep_before_sep; assumption.
    + symmetry. apply String.eqb_neq. destruct output_dir; discriminate.
Qed.

End DestinationPath.

(** X11 at the default output directory. *)
Lemma destination_in_output_dir_witness :
  Path.dirname
    (image_filepath (Sample.healthy Sample.png_bytes []) "generated_images")
  = "generated_images".
Proof.
  apply (proj2 (destination_in_output_dir
                  (Sample.healthy Sample.png_bytes []) "generated_images"));
    [discriminate|reflexivity|reflexivity].
Defined.

(* ------------------------------------------------------------------ *)
(** ** What the outcome of a save depends on *)

Lemma by_files_ret {A} (a : A) : by_files (ret a).
Proof. intros w1 w2 H. auto. Qed.

Lemma by_files_raise {A} e : by_files (@raise A e).
Proof. intros w1 w2 H. auto. Qed.

Lemma by_files_lift {A} (r : result A) : by_files (lift r).
Proof. intros w1 w2 H. auto. Qed.

Lemma by_files_logger l m : by_files (logger l m).
Proof. intros w1 w2 H. auto. Qed.

Lemma by_files_path_exists p : by_files (path_exists p).
Proof. intros w1 w2 H. unfold path_exists. rewrite H. auto. Qed.

Lemma by_files_set_files g : by_files (set_files g).
Proof. intros w1 w2 H. simpl. rewrite H. auto. Qed.

Lemma by_files_bind {A B} (m : M A) (k : A -> M B) :
  by_files m -> (forall a, by_files (k a)) -> by_files (bind m k).
Proof.
  intros Hm Hk w1 w2 H. unfold bind. destruct (Hm w1 w2 H) as [Hr Hf].
  destruct (m w1) as [[a1|e1] w1'], (m w2) as [[a2|e2] w2'];
    simpl in Hr, Hf; try discriminate; injection Hr as <-.
  - apply Hk, Hf.
  - auto.
Qed.

Lemma by_files_try {A} (m : M A) (h : exn -> M A) :
  by_files m -> (forall e, by_files (h e)) -> by_files (try_except m h).
Proof.
  intros Hm Hh w1 w2 H. unfold try_except. destruct (Hm w1 w2 H) as [Hr Hf].
  destruct (m w1) as [[a1|e1] w1'], (m w2) as [[a2|e2] w2'];
    simpl in Hr, Hf; try discriminate; injection Hr as <-.
  - auto.
  - apply Hh, Hf.
Qed.

Section ByFiles.

Variable E : env.

Lemma by_files_get url : by_files (get E url).
Proof. intros w1 w2 H. auto. Qed.

Lemma by_files_copy2 src dst : by_files (copy2 E src dst).
Proof.
  intros w1 w2 H. unfold copy2. rewrite H.
  destruct (copy2_fault E (files w2) src dst) as [[e [data|]]|]; simpl.
  - rewrite H. auto.
  - auto.
  - destruct (files w2 !! src); simpl; [rewrite H|]; auto.
Qed.

Lemma by_files_save img p : by_files (save E img p).
Proof.
  intros w1 w2 H. unfold save. rewrite H.
  destruct (image_save E (files w2) img p) as [data|e [data|]]; simpl;
    [rewrite H|rewrite H|]; auto.
Qed.

(** How [save_image_from_url] ends and the files it leaves are
    determined by the files it finds and the libraries' answers: what
    has been logged, called, slept or fetched before changes neither. *)
Lemma save_image_from_url_by_files url output_dir :
  by_files (save_image_from_url E url output_dir).
Proof.
  unfold save_image_from_url, check_disk_space, validate_image, verify,
    create_backup, raise_for_status, Image_open.
  repeat first
    [ apply by_files_ret | apply by_files_raise | apply by_files_lift
    | apply by_files_logger | apply by_files_path_exists
    | apply by_files_get | apply by_files_copy2 | apply by_files_save
    | apply by_files_bind; [|intros ?]
    | apply by_files_try; [|intros ?]
    | match goal with
      | |- by_files (if ?b then _ else _) => destruct b
      | |- by_files (match ?x with _ => _ end) => destruct x
      end ].
Qed.

End ByFiles.

(* ================================================================== *)
(** * Further properties of image_generator.py *)

Lemma validate_raises_value_error p e :
  validate_prompt p = Raise e -> exn_cls e = ValueError.
Proof.
  destruct p as [| | |s| |];
    try (rewrite validate_not_str by (intros s' [=]);
         intros [= <-]; reflexivity).
  rewrite validate_str.
  destruct (String.eqb s ""); [intros [= <-]; reflexivity|].
  destruct (String.eqb (PyStr.strip s) ""); [intros [= <-]; reflexivity|].
  destruct (500 <? String.length (PyStr.strip s))%nat;
    [intros [= <-]; reflexivity|discriminate].
Qed.

Section LoopOutcomes.

Variable E : env.
Variable self : ImageGenerator.
Variable cleaned_prompt : string.

(** The three ways one turn of the loop can go. *)
Lemma loop_cases attempt rest w :
  (exists r w',
     try_attempt E self cleaned_prompt attempt w = (Ok r, w') /\
     attempts_loop E self cleaned_prompt (attempt :: rest) w
     = (Ok (Some r), w')) \/
  (exists e w',
     try_attempt E self cleaned_prompt attempt w = (Raise e, w') /\
     attempts_loop E self cleaned_prompt (attempt :: rest) w
     = (Raise (mk_exn APIError (snd (_handle_api_error e))),
        logged ERROR (FailedToGenerateImage (snd (_handle_api_error e))) w')) \/
  (exists e w',
     try_attempt E self cleaned_prompt attempt w = (Raise e, w') /\
     attempt <> max_retries self /\
     attempts_loop E self cleaned_prompt (attempt :: rest) w
     = attempts_loop E self cleaned_prompt rest
         (logged WARNING
            (AttemptFailed (attempt + 1) (snd (_handle_api_error e))) w')).
Proof.
  destruct (try_attempt E self cleaned_prompt attempt w) as [[r|e] w']
    eqn:Htry.
  - left. exists r, w'. split; [reflexivity|]. apply loop_returns, Htry.
  - right. destruct (fst (_handle_api_error e)) eqn:Hretry.
    + destruct (Z.eq_dec attempt (max_retries self)) as [Hlast|Hmore].
      * left. exists e, w'. split; [reflexivity|].
        apply (loop_gives_up E self cleaned_prompt _ rest _ _ _ Htry). auto.
      * right. exists e, w'. split; [reflexivity|]. split; [exact Hmore|].
        apply (loop_goes_on E self cleaned_prompt _ rest _ _ _ Htry
                 Hretry Hmore).
    + left. exists e, w'. split; [reflexivity|].
      apply (loop_gives_up E self cleaned_prompt _ rest _ _ _ Htry). auto.
Qed.

Lemma attempts_loop_raises attempts : forall w e,
  fst (attempts_loop E self cleaned_prompt attempts w) = Raise e ->
  exn_cls e = APIError.
Proof.
  induction attempts as [|attempt rest IH]; intros w e; [discriminate|].
  destruct (loop_cases attempt rest w)
    as [(r & w' & _ & ->)|[(e0 & w' & _ & ->)|(e0 & w' & _ & _ & ->)]].
  - discriminate.
  - intros [= <-]. reflexivity.
  - apply IH.
Qed.

Lemma attempts_loop_returns_record attempts : forall w,
  In (max_retries self) attempts ->
  fst (attempts_loop E self cleaned_prompt attempts w) <> Ok None.
Proof.
  induction attempts as [|attempt rest IH]; intros w Hin; [contradiction|].
  destruct (loop_cases attempt rest w)
    as [(r & w' & _ & ->)|[(e0 & w' & _ & ->)|(e0 & w' & _ & Hne & ->)]].
  - discriminate.
  - discriminate.
  - apply IH. destruct Hin as [Heq|Hin]; [congruence|exact Hin].
Qed.

(** What an attempt adds to the trace. *)
Lemma call_and_save_trace attempt w :
  exists evs,
    trace (snd (call_and_save E self cleaned_prompt attempt w))
    = (trace w ++ Ran cleaned_prompt :: evs)%list /\
    runs_of evs = [] /\ sleeps_of evs = [].
Proof.
  unfold call_and_save. unfold bind at 1, run.
  destruct (client_run E (count_runs (trace w)) cleaned_prompt)
    as [output|e]; [|exists []; auto].
  unfold bind at 1. destruct output as [|url urls]; [exists []; auto|].
  cbn [first_item ret]. unfold bind at 1.
  pose proof (save_image_from_url_trace E url (output_dir self)
                (emit (Ran cleaned_prompt) w)) as Htrace.
  destruct (save_image_from_url E url (output_dir self)
              (emit (Ran cleaned_prompt) w)) as [[p|e] w'];
    simpl in Htrace; simpl;
    destruct Htrace as [-> | ->].
  - exists []. auto.
  - exists [Fetched url]. rewrite <- app_assoc. auto.
  - exists []. auto.
  - exists [Fetched url]. rewrite <- app_assoc. auto.
Qed.

(** The wait before a retry either goes through, logged and slept, or
    raises without an event. *)
Lemma backoff_wait_cases attempt w :
  (delay <- lift (float_mul_int (base_delay self) (2 ^ (attempt - 1))) ;;
   logger INFO (RetryAttempt attempt (max_retries self) delay) ;;;
   sleep E delay) w
  = (Ok tt,
     emit (Slept (backoff_delay self attempt))
       (logged INFO (RetryAttempt attempt (max_retries self)
                       (backoff_delay self attempt)) w)) \/
  exists e w',
    (delay <- lift (float_mul_int (base_delay self) (2 ^ (attempt - 1))) ;;
     logger INFO (RetryAttempt attempt (max_retries self) delay) ;;;
     sleep E delay) w = (Raise e, w') /\
    trace w' = trace w /\ files w' = files w.
Proof.
  unfold bind, lift, float_mul_int, logger, sleep.
  destruct (fits_float (2 ^ (attempt - 1))); [|right; eauto].
  fold (backoff_delay self attempt).
  destruct (in_time_range (backoff_delay self attempt));
    [|right; unfold raise; simpl; eauto].
  destruct (Qle_bool 0 (backoff_delay self attempt));
    [|right; unfold raise; simpl; eauto].
  destruct (sleep_fault E (backoff_delay self attempt));
    [right; unfold raise; simpl; eauto|left; reflexivity].
Qed.

Lemma try_attempt_trace attempt w :
  exists evs,
    trace (snd (try_attempt E self cleaned_prompt attempt w))
    = (trace w ++ evs)%list /\
    length (runs_of evs) <= 1 /\
    length (sleeps_of evs) <= (if (0 <? attempt)%Z then 1 else 0).
Proof.
  unfold try_attempt. fold (call_and_save E self cleaned_prompt attempt).
  destruct (0 <? attempt)%Z.
  - destruct (backoff_wait_cases attempt w)
      as [Hwait|(e & w' & Hwait & Ht & _)].
    + rewrite (bind_ok _ _ _ _ _ Hwait).
      match goal with
      | |- context [call_and_save _ _ _ _ ?w1] =>
          destruct (call_and_save_trace attempt w1) as (evs & Ht & Hr & Hs);
          rewrite Ht
      end.
      simpl trace. rewrite <- app_assoc. eexists. split; [reflexivity|].
      simpl. rewrite Hr, Hs. simpl. lia.
    + rewrite (bind_raise _ _ _ _ _ Hwait).
      exists []. simpl. rewrite app_nil_r. auto.
  - rewrite (bind_ok (ret tt) _ w tt w eq_refl).
    destruct (call_and_save_trace attempt w) as (evs & Ht & Hr & Hs).
    rewrite Ht. eexists. split; [reflexivity|].
    simpl. rewrite Hr, Hs. simpl. lia.
Qed.

Lemma attempts_loop_trace attempts : forall w,
  exists evs,
    trace (snd (attempts_loop E self cleaned_prompt attempts w))
    = (trace w ++ evs)%list /\
    length (runs_of evs) <= length attempts /\
    length (sleeps_of evs)
    <= length (List.filter (fun a => (0 <? a)%Z) attempts).
Proof.
  induction attempts as [|attempt rest IH]; intros w.
  - exists []. simpl. rewrite app_nil_r. auto.
  - destruct (try_attempt_trace attempt w) as (evs & Ht & Hr & Hs).
    assert (Hone : length (sleeps_of evs) + length (List.filter (fun a => (0 <? a)%Z) rest)
                   <= length (List.filter (fun a => (0 <? a)%Z) (attempt :: rest))).
    { cbn [List.filter]. destruct (0 <? attempt)%Z; simpl; lia. }
    destruct (loop_cases attempt rest w)
      as [(r & w' & Htry & ->)|[(e0 & w' & Htry & ->)|(e0 & w' & Htry & _ & ->)]];
      rewrite Htry in Ht; simpl in Ht.
    + exists evs. split; [exact Ht|]. cbn [length]. lia.
    + exists evs. split; [exact Ht|]. cbn [length]. lia.
    + destruct (IH (logged WARNING
                      (AttemptFailed (attempt + 1) (snd (_handle_api_error e0)))
                      w')) as (evs' & Ht' & Hr' & Hs').
      exists (evs ++ evs')%list. rewrite Ht'. simpl trace. rewrite Ht.
      rewrite <- app_assoc. split; [reflexivity|].
      rewrite runs_of_app, sleeps_of_app, !length_app. cbn [length]. lia.
Qed.

End LoopOutcomes.

Lemma range_has_last n : (0 <= n)%Z -> In n (range (n + 1)).
Proof.
  intros Hn. unfold range. apply in_map_iff. exists (Z.to_nat n).
  split; [lia|]. apply in_seq. lia.
Qed.

Lemma range_empty n : (n < 0)%Z -> range (n + 1) = [].
Proof.
  intros Hn. unfold range. replace (Z.to_nat (n + 1)) with 0%nat by lia.
  reflexivity.
Qed.

Lemma range_two n :
  (1 <= n)%Z -> exists rest, range (n + 1) = 0%Z :: 1%Z :: rest.
Proof.
  intros Hn. unfold range.
  replace (Z.to_nat (n + 1)) with (S (S (Z.to_nat (n - 1)))) by lia.
  simpl. eauto.
Qed.

Lemma range_sleeps n :
  length (List.filter (fun a => (0 <? a)%Z) (range (n + 1))) <= Z.to_nat n.
Proof.
  unfold range. destruct (Z.to_nat (n + 1)) as [|k] eqn:Hk; [simpl; lia|].
  cbn [seq map List.filter]. change (0 <? Z.of_nat 0)%Z with false. cbv iota.
  etransitivity; [apply filter_length_le|].
  rewrite length_map, length_seq. lia.
Qed.

Lemma range_length n : length (range n) = Z.to_nat n.
Proof. unfold range. rewrite length_map, length_seq. reflexivity. Qed.

Section GenerateOutcomes.

Variable E : env.
Variable self : ImageGenerator.

(** X13.  [generate_image] raises nothing but a ValueError or an
    APIError.  A prompt that fails validation ends the call with the
    ValueError of [validate_prompt] itself, before anything is done: no
    remote call, no log entry, no file touched.  Once the prompt has
    passed validation, every failure reaches the caller as an APIError. *)
Theorem generate_image_errors p w :
  (forall e,
     validate_prompt p = Raise e ->
     generate_image E self p w = (Raise e, w) /\ exn_cls e = ValueError) /\
  (forall e,
     fst (generate_image E self p w) = Raise e ->
     exn_cls e = ValueError \/ exn_cls e = APIError) /\
  (forall cleaned_prompt e,
     validate_prompt p = Ok cleaned_prompt ->
     fst (generate_image E self p w) = Raise e ->
     exn_cls e = APIError).
Proof.
  assert (Hinvalid : forall e,
    validate_prompt p = Raise e -> generate_image E self p w = (Raise e, w)).
  { intros e He. unfold generate_image.
    erewrite bind_raise; [reflexivity|]. unfold lift. rewrite He.
    reflexivity. }
  assert (Hvalid : forall cleaned_prompt e,
    validate_prompt p = Ok cleaned_prompt ->
    fst (generate_image E self p w) = Raise e -> exn_cls e = APIError).
  { intros c e Hc. rewrite (generate_image_validated _ _ _ _ _ Hc).
    apply attempts_loop_raises. }
  split; [|split].
  - intros e He. split; [apply Hinvalid, He|].
    apply (validate_raises_value_error p e He).
  - intros e. destruct (validate_prompt p) as [c|e0] eqn:Hp.
    + right. eapply Hvalid; eauto.
    + rewrite (Hinvalid e0 eq_refl). intros [= <-]. left.
      apply (validate_raises_value_error p e0 Hp).
  - exact Hvalid.
Qed.

(** X14.  With [max_retries >= 0], [generate_image] never returns
    [None]: it returns a record or raises.  With [max_retries < 0] and a
    valid prompt the loop has no turn to make, and the call returns
    [None] without a remote call. *)
Theorem generate_image_none_only_without_attempts p w :
  ((0 <= max_retries self)%Z ->
     fst (generate_image E self p w) <> Ok None) /\
  ((max_retries self < 0)%Z ->
     forall cleaned_prompt,
       validate_prompt p = Ok cleaned_prompt ->
       generate_image E self p w = (Ok None, w)).
Proof.
  split.
  - intros Hmax. destruct (validate_prompt p) as [c|e] eqn:Hp.
    + rewrite (generate_image_validated _ _ _ _ _ Hp).
      apply attempts_loop_returns_record, range_has_last, Hmax.
    + unfold generate_image. erewrite bind_raise; [discriminate|].
      unfold lift. rewrite Hp. reflexivity.
  - intros Hmax c Hp. rewrite (generate_image_validated _ _ _ _ _ Hp).
    rewrite (range_empty _ Hmax). reflexivity.
Qed.

(** X15.  Whatever the remote service, the network and the disk do, one
    call of [generate_image] makes at most [max_retries + 1] remote calls
    and sleeps at most [max_retries] times. *)
Theorem generate_image_call_budget p w :
  length (runs_of (trace (snd (generate_image E self p w))))
  <= length (runs_of (trace w)) + Z.to_nat (max_retries self + 1) /\
  length (sleeps_of (trace (snd (generate_image E self p w))))
  <= length (sleeps_of (trace w)) + Z.to_nat (max_retries self).
Proof.
  destruct (validate_prompt p) as [c|e] eqn:Hp.
  - rewrite (generate_image_validated _ _ _ _ _ Hp).
    destruct (attempts_loop_trace E self c (range (max_retries self + 1)) w)
      as (evs & -> & Hr & Hs).
    rewrite runs_of_app, sleeps_of_app, !length_app.
    rewrite range_length in Hr.
    pose proof (range_sleeps (max_retries self)). lia.
  - unfold generate_image. erewrite bind_raise;
      [|unfold lift; rewrite Hp; reflexivity].
    simpl. lia.
Qed.

(** X16.  When the first remote call raises an error that is classified
    as not worth a retry, [generate_image] raises the APIError of that
    classification after exactly that one call, without sleeping. *)
Theorem unretryable_error_ends_at_once p cleaned_prompt w e :
  validate_prompt p = Ok cleaned_prompt ->
  (0 <= max_retries self)%Z ->
  client_run E (count_runs (trace w)) cleaned_prompt = Raise e ->
  fst (_handle_api_error e) = false ->
  generate_image E self p w
  = (Raise (mk_exn APIError (snd (_handle_api_error e))),
     logged ERROR (FailedToGenerateImage (snd (_handle_api_error e)))
       (emit (Ran cleaned_prompt) w)) /\
  trace (snd (generate_image E self p w))
  = (trace w ++ [Ran cleaned_prompt])%list.
Proof.
  intros Hp Hmax Hrun Hretry.
  assert (Hgen : generate_image E self p w
    = (Raise (mk_exn APIError (snd (_handle_api_error e))),
       logged ERROR (FailedToGenerateImage (snd (_handle_api_error e)))
         (emit (Ran cleaned_prompt) w))).
  { rewrite (generate_image_validated _ _ _ _ _ Hp).
    destruct (range_succ _ Hmax) as [rest ->].
    apply (loop_gives_up E self cleaned_prompt 0%Z rest w e); [|auto].
    rewrite try_attempt_first. apply call_raises, Hrun. }
  rewrite Hgen. auto.
Qed.

Lemma call_then_save_ok cleaned_prompt attempt w url urls p w' :
  client_run E (count_runs (trace w)) cleaned_prompt = Ok (url :: urls) ->
  save_image_from_url E url (output_dir self) (emit (Ran cleaned_prompt) w)
  = (Ok p, w') ->
  call_and_save E self cleaned_prompt attempt w
  = (Ok (mk_generated p cleaned_prompt),
     logged INFO (SuccessfullyGenerated (attempt + 1)) w').
Proof.
  intros H Hsave. unfold call_and_save.
  erewrite bind_ok; [|unfold run; rewrite H; reflexivity].
  erewrite bind_ok; [|reflexivity].
  erewrite bind_ok; [|exact Hsave].
  reflexivity.
Qed.

(** X17.  When the first remote call fails with a retryable error, the
    wait before the second attempt goes through ([base_delay] is a delay
    [time.sleep] accepts: not negative, within its range, and taken by
    the operating system), the second call answers with a URL and saving
    the image from that URL succeeds, [generate_image] returns the
    record of the saved file after exactly two remote calls and one
    sleep, of [base_delay]. *)
Theorem retry_then_success p cleaned_prompt w e url urls saved :
  validate_prompt p = Ok cleaned_prompt ->
  (1 <= max_retries self)%Z ->
  can_wait E self 1 = true ->
  client_run E (count_runs (trace w)) cleaned_prompt = Raise e ->
  fst (_handle_api_error e) = true ->
  client_run E (S (count_runs (trace w))) cleaned_prompt = Ok (url :: urls) ->
  fst (save_image_from_url E url (output_dir self) w) = Ok saved ->
  fst (generate_image E self p w)
  = Ok (Some (mk_generated saved cleaned_prompt)) /\
  runs_of (trace (snd (generate_image E self p w)))
  = (runs_of (trace w) ++ [cleaned_prompt; cleaned_prompt])%list /\
  sleeps_of (trace (snd (generate_image E self p w)))
  = (sleeps_of (trace w) ++ [base_delay self])%list.
Proof.
  intros Hp Hmax Hwait Hrun1 Hretry Hrun2 Hsave.
  rewrite (generate_image_validated _ _ _ _ _ Hp).
  destruct (range_two _ Hmax) as [rest ->].
  assert (Htry1 : try_attempt E self cleaned_prompt 0 w
                  = (Raise e, emit (Ran cleaned_prompt) w)).
  { rewrite try_attempt_first. apply call_raises, Hrun1. }
  rewrite (loop_goes_on E self cleaned_prompt _ _ _ _ _ Htry1 Hretry)
    by lia.
  change (0 + 1)%Z with 1%Z.
  fold (after_first_failure cleaned_prompt (snd (_handle_api_error e)) w).
  set (w1 := after_first_failure cleaned_prompt (snd (_handle_api_error e)) w).
  set (w2 := after_backoff self 1 w1).
  assert (Hcount : count_runs (trace w2) = S (count_runs (trace w))).
  { unfold w2. rewrite count_runs_after_backoff. unfold w1. simpl.
    rewrite !count_runs_length, runs_of_app, length_app. simpl. lia. }
  destruct (save_image_from_url E url (output_dir self)
              (emit (Ran cleaned_prompt) w2)) as [r w3] eqn:Hs.
  assert (Hr : r = Ok saved).
  { rewrite <- Hsave.
    rewrite (proj1 (save_image_from_url_by_files E url (output_dir self) w
                      (emit (Ran cleaned_prompt) w2) eq_refl)), Hs.
    reflexivity. }
  subst r.
  assert (Htry2 : try_attempt E self cleaned_prompt 1 w1
    = (Ok (mk_generated saved cleaned_prompt),
       logged INFO (SuccessfullyGenerated (1 + 1)) w3)).
  { rewrite try_attempt_after_backoff by exact Hwait. fold w2.
    apply (call_then_save_ok cleaned_prompt 1 w2 url urls saved w3);
      [rewrite Hcount; exact Hrun2|exact Hs]. }
  rewrite (loop_returns E self cleaned_prompt _ rest _ _ _ Htry2).
  split; [reflexivity|]. simpl snd. simpl trace.
  pose proof (save_image_from_url_trace E url (output_dir self)
                (emit (Ran cleaned_prompt) w2)) as Ht.
  rewrite Hs in Ht. simpl snd in Ht.
  assert (Hruns : runs_of (trace w3) = runs_of (trace (emit (Ran cleaned_prompt) w2)) /\
                  sleeps_of (trace w3) = sleeps_of (trace (emit (Ran cleaned_prompt) w2))).
  { destruct Ht as [-> | ->]; [auto|].
    rewrite runs_of_app, sleeps_of_app. simpl. rewrite !app_nil_r. auto. }
  destruct Hruns as [-> ->].
  unfold w2, after_backoff. change (0 <? 1)%Z with true. cbv iota.
  unfold w1, after_first_failure. simpl trace.
  rewrite !runs_of_app, !sleeps_of_app. simpl.
  rewrite !app_nil_r, backoff_delay_1, <- !app_assoc. auto.
Qed.

(** X18.  With a negative [base_delay] that [time.sleep] can convert
    the first retry never happens: after a first remote call that failed
    with a retryable error, [time.sleep] refuses the negative delay, and
    the call ends with
    APIError("Unexpected error: sleep length must be non-negative")
    after that one remote call. *)
Theorem negative_delay_ends_retrying p cleaned_prompt w e :
  validate_prompt p = Ok cleaned_prompt ->
  (1 <= max_retries self)%Z ->
  (base_delay self < 0)%Q ->
  (- sleep_limit <= base_delay self)%Q ->
  client_run E (count_runs (trace w)) cleaned_prompt = Raise e ->
  fst (_handle_api_error e) = true ->
  fst (generate_image E self p w)
  = Raise (mk_exn APIError
             "Unexpected error: sleep length must be non-negative") /\
  trace (snd (generate_image E self p w))
  = (trace w ++ [Ran cleaned_prompt])%list.
Proof.
  intros Hp Hmax Hbase Hlow Hrun1 Hretry.
  rewrite (generate_image_validated _ _ _ _ _ Hp).
  destruct (range_two _ Hmax) as [rest ->].
  assert (Htry1 : try_attempt E self cleaned_prompt 0 w
                  = (Raise e, emit (Ran cleaned_prompt) w)).
  { rewrite try_attempt_first. apply call_raises, Hrun1. }
  rewrite (loop_goes_on E self cleaned_prompt _ _ _ _ _ Htry1 Hretry)
    by lia.
  set (w1 := logged WARNING _ _).
  assert (Hneg : Qle_bool 0 (backoff_delay self 1) = false).
  { rewrite backoff_delay_1. apply not_true_is_false. intros H.
    apply Qle_bool_iff in H. apply (Qlt_not_le _ _ Hbase H). }
  assert (Hrange : in_time_range (backoff_delay self 1) = true).
  { rewrite backoff_delay_1. apply in_time_range_iff.
    split; [exact Hlow|].
    eapply Qlt_trans; [exact Hbase|apply sleep_limit_pos]. }
  assert (Htry2 : try_attempt E self cleaned_prompt 1 w1
    = (Raise (mk_exn ValueError "sleep length must be non-negative"),
       logged INFO (RetryAttempt 1 (max_retries self)
                      (backoff_delay self 1)) w1)).
  { unfold try_attempt. change (0 <? 1)%Z with true. cbv iota.
    erewrite bind_raise; [reflexivity|].
    erewrite bind_ok;
      [|unfold lift, float_mul_int;
        rewrite (fits_float_pow2 (1 - 1)) by lia;
        fold (backoff_delay self 1); reflexivity].
    erewrite bind_ok; [|reflexivity].
    unfold sleep. rewrite Hrange, Hneg. reflexivity. }
  rewrite (loop_gives_up E self cleaned_prompt _ rest _ _ _ Htry2)
    by (left; reflexivity).
  split; reflexivity.
Qed.

End GenerateOutcomes.

(** X14 at a generator built with [max_retries=-1]. *)
Lemma generate_image_none_only_without_attempts_witness :
  generate_image answers_url no_attempts_generator (PyStr "test prompt")
    Sample.empty_world
  = (Ok None, Sample.empty_world).
Proof.
  apply (proj2 (generate_image_none_only_without_attempts answers_url
                  no_attempts_generator (PyStr "test prompt")
                  Sample.empty_world)
           ltac:(simpl; lia) "test prompt" eq_refl).
Defined.

(** X16 at a remote service that rejects the request. *)
Lemma unretryable_error_ends_at_once_witness :
  fst (generate_image model_rejects sample_generator (PyStr "test prompt")
         Sample.empty_world)
  = Raise (mk_exn APIError "Model error: Invalid model") /\
  trace (snd (generate_image model_rejects sample_generator
                (PyStr "test prompt") Sample.empty_world))
  = [Ran "test prompt"].
Proof.
  destruct (unretryable_error_ends_at_once model_rejects sample_generator
              (PyStr "test prompt") "test prompt" Sample.empty_world
              (mk_exn ModelError "Invalid model")
              eq_refl ltac:(simpl; lia) eq_refl eq_refl) as [Hrun Htrace].
  split; [rewrite Hrun; reflexivity|exact Htrace].
Defined.

(** X17 at a remote service that fails once and then answers. *)
Lemma retry_then_success_witness :
  fst (generate_image flaky sample_generator (PyStr "test prompt")
         Sample.empty_world)
  = Ok (Some (mk_generated Sample.path "test prompt")) /\
  runs_of (trace (snd (generate_image flaky sample_generator
                         (PyStr "test prompt") Sample.empty_world)))
  = ["test prompt"; "test prompt"] /\
  sleeps_of (trace (snd (generate_image flaky sample_generator
                           (PyStr "test prompt") Sample.empty_world)))
  = [1 # 10].
Proof.
  apply (retry_then_success flaky sample_generator (PyStr "test prompt")
           "test prompt" Sample.empty_world
           (mk_exn ReplicateError "Rate limit exceeded") Sample.url []
           Sample.path eq_refl ltac:(simpl; lia) eq_refl
           eq_refl eq_refl eq_refl eq_refl).
Defined.

(** X18 at a generator built with [base_delay=-0.1]. *)
Lemma negative_delay_ends_retrying_witness :
  fst (generate_image rate_limited negative_delay_generator
         (PyStr "test prompt") Sample.empty_world)
  = Raise (mk_exn APIError
             "Unexpected error: sleep length must be non-negative") /\
  trace (snd (generate_image rate_limited negative_delay_generator
                (PyStr "test prompt") Sample.empty_world))
  = [Ran "test prompt"].
Proof.
  apply (negative_delay_ends_retrying rate_limited negative_delay_generator
           (PyStr "test prompt") "test prompt" Sample.empty_world
           (mk_exn ReplicateError "Rate limit exceeded")
           eq_refl ltac:(simpl; lia) ltac:(unfold Qlt; simpl; lia)
           ltac:(unfold Qle; simpl; lia) eq_refl eq_refl).
Defined.

(* ------------------------------------------------------------------ *)
(** ** What is retried, what is returned *)

(** X19.  [_handle_api_error] asks for a retry only for an error of the
    remote service or of the network: an exception that is neither a
    ReplicateError nor a RequestException is never retried, and neither
    is a ModelError. *)
Theorem retry_only_service_or_network e :
  fst (_handle_api_error e) = true ->
  isinstance e ModelError = false /\
  (isinstance e ReplicateError = true \/
   isinstance e RequestException = true).
Proof.
  unfold _handle_api_error.
  destruct (isinstance e ModelError); [discriminate|].
  destruct (isinstance e ReplicateError); [auto|].
  destruct (isinstance e RequestException); [auto|discriminate].
Qed.

(** X19 at a connection error, as in [test_handle_api_error_network]. *)
Lemma retry_only_service_or_network_witness :
  isinstance (mk_exn ConnectionError "Connection failed") ModelError = false /\
  (isinstance (mk_exn ConnectionError "Connection failed") ReplicateError
   = true \/
   isinstance (mk_exn ConnectionError "Connection failed") RequestException
   = true).
Proof.
  apply (retry_only_service_or_network
           (mk_exn ConnectionError "Connection failed")).
  reflexivity.
Defined.

(** X20.  A prompt [validate_prompt] returns is never empty, has at most
    500 characters, neither starts nor ends with whitespace, and is no
    longer than the string it was made from. *)
Theorem validated_prompt_invariant p v :
  validate_prompt p = Ok v ->
  v <> "" /\ String.length v <= 500 /\ PyStr.trimmed v /\
  exists raw, p = PyStr raw /\ String.length v <= String.length raw.
Proof.
  intros H. destruct (validate_ok_inv p v H) as (raw & Hp & Hv & Hne & Hlen).
  split; [exact Hne|]. split; [exact Hlen|]. split.
  - subst v. apply PyStrFacts.strip_trimmed.
  - exists raw. split; [exact Hp|].
    destruct (PyStrFacts.strip_split raw) as (l & r & Hraw & _ & _).
    rewrite <- Hv in Hraw. rewrite Hraw.
    rewrite !append_length. lia.
Qed.

Lemma validated_prompt_invariant_witness :
  "hi" <> "" /\ String.length "hi" <= 500 /\ PyStr.trimmed "hi" /\
  exists raw, PyStr "  hi  " = PyStr raw /\
              String.length "hi" <= String.length raw.
Proof.
  apply (validated_prompt_invariant (PyStr "  hi  ") "hi"). reflexivity.
Defined.

Section ReturnedFile.

Variable E : env.
Variable self : ImageGenerator.

Lemma try_attempt_ok_inv cleaned_prompt attempt w r w' :
  try_attempt E self cleaned_prompt attempt w = (Ok r, w') ->
  exists url w2 w3,
    save_image_from_url E url (output_dir self) w2 = (Ok (filepath r), w3) /\
    files w' = files w3.
Proof.
  unfold try_attempt. intros H.
  apply bind_ok_inv in H as ([] & w1 & _ & H).
  apply bind_ok_inv in H as (output & w2 & _ & H).
  apply bind_ok_inv in H as (url & w3 & _ & H).
  apply bind_ok_inv in H as (p & w4 & Hsave & H).
  apply bind_ok_inv in H as ([] & w5 & Hlog & H).
  unfold logger in Hlog. injection Hlog as <-.
  unfold ret in H. injection H as <- <-.
  exists url, w3, w4. auto.
Qed.

Lemma attempts_loop_file cleaned_prompt attempts : forall w r,
  fst (attempts_loop E self cleaned_prompt attempts w) = Ok (Some r) ->
  filepath r = image_filepath E (output_dir self) /\
  is_Some (files (snd (attempts_loop E self cleaned_prompt attempts w))
             !! filepath r).
Proof.
  induction attempts as [|attempt rest IH]; intros w r; [discriminate|].
  destruct (loop_cases E self cleaned_prompt attempt rest w)
    as [(r0 & w' & Htry & ->)|[(e0 & w' & _ & ->)|(e0 & w' & _ & _ & ->)]].
  - intros [= <-]. simpl snd.
    apply try_attempt_ok_inv in Htry as (url & w2 & w3 & Hsave & ->).
    destruct (save_ok_inv E _ _ _ _ _ Hsave)
      as (Hp & _ & resp & img & data & present
          & _ & _ & _ & _ & _ & Hfile & _).
    split; [exact Hp|]. rewrite Hfile. eauto.
  - discriminate.
  - apply IH.
Qed.

(** X21.  When [generate_image] returns a record, its ['filepath'] is
    the timestamped path in the configured output directory, and that
    file exists when the call returns. *)
Theorem returned_file_exists p w r :
  fst (generate_image E self p w) = Ok (Some r) ->
  filepath r = image_filepath E (output_dir self) /\
  is_Some (files (snd (generate_image E self p w)) !! filepath r).
Proof.
  destruct (validate_prompt p) as [c|e] eqn:Hp.
  - rewrite (generate_image_validated _ _ _ _ _ Hp).
    apply attempts_loop_file.
  - unfold generate_image. erewrite bind_raise;
      [discriminate|unfold lift; rewrite Hp; reflexivity].
Qed.

End ReturnedFile.

Lemma returned_file_exists_witness :
  Sample.path = image_filepath answers_url Sample.dir /\
  is_Some (files (snd (generate_image answers_url sample_generator
                         (PyStr "  test prompt  ") Sample.empty_world))
             !! Sample.path).
Proof.
  apply (returned_file_exists answers_url sample_generator
           (PyStr "  test prompt  ") Sample.empty_world
           (mk_generated Sample.path "test prompt")).
  reflexivity.
Defined.

(* ================================================================== *)
(** * The first versions, next to the hardened ones *)

Section LegacyVersions.

Variable E : env.

(** X22.  The hardened [validate_prompt] differs from the first version
    in one way only: it rejects a prompt that strips to more than 500
    characters.  It raises whatever the first version raises, returns
    what the first version returns when that has at most 500
    characters, and accepts nothing the first version rejects. *)
Theorem validate_prompt_refines_legacy p :
  (forall e, Legacy.validate_prompt p = Raise e ->
     validate_prompt p = Raise e) /\
  (forall v, Legacy.validate_prompt p = Ok v ->
     String.length v <= 500 -> validate_prompt p = Ok v) /\
  (forall v, Legacy.validate_prompt p = Ok v ->
     500 < String.length v -> validate_prompt p = Raise too_long) /\
  (forall v, validate_prompt p = Ok v -> Legacy.validate_prompt p = Ok v).
Proof.
  unfold Legacy.validate_prompt, validate_prompt.
  destruct (negb (truthy p) || negb (is_str p)).
  { repeat split; intros; try discriminate; assumption. }
  destruct p as [| | |s| |];
    try (repeat split; intros; try discriminate; assumption).
  cbv zeta.
  destruct (negb (truthy (PyStr (PyStr.strip s)))).
  { repeat split; intros; try discriminate; assumption. }
  destruct (Nat.ltb_spec 500 (String.length (PyStr.strip s))).
  - split; [discriminate|]. split; [intros v [= <-]; lia|].
    split; [reflexivity|discriminate].
  - split; [discriminate|]. split; [intros v [= <-] _; reflexivity|].
    split; [intros v [= <-]; lia|auto].
Qed.

Lemma legacy_save_other url output_dir other :
  other <> image_filepath E output_dir ->
  keeps (fun w => files w !! other) (Legacy.save_image_from_url E url output_dir).
Proof.
  intros Hne. unfold Legacy.save_image_from_url, raise_for_status, Image_open.
  pose proof (keeps_files_get E).
  pose proof (fun img => keeps_other_save E img _ _ Hne).
  repeat first
    [ assumption
    | apply keeps_through; solve [auto with keeps]
    | solve [auto with keeps]
    | apply keeps_bind; [|intros ?]
    | match goal with
      | |- keeps _ (if ?b then _ else _) => destruct b
      end ].
Qed.

(** X23.  The first version of [save_image_from_url] changes no file but
    its destination, so it never makes a backup.  Whenever the hardened
    version returns a path, the first version, run in the same
    environment from the same world, returns the same path and leaves
    the same bytes there, provided the destination is new or what
    [Image.save] does at the destination does not depend on the backup
    file, which only the hardened version may have written by then. *)
Theorem legacy_save_agrees_on_success url output_dir w :
  (forall other, other <> image_filepath E output_dir ->
     files (snd (Legacy.save_image_from_url E url output_dir w)) !! other
     = files w !! other) /\
  (forall p,
     fst (save_image_from_url E url output_dir w) = Ok p ->
     (files w !! p = None \/
      forall present img old,
        image_save E (<[backup_of p := old]> present) img p
        = image_save E present img p) ->
     fst (Legacy.save_image_from_url E url output_dir w) = Ok p /\
     files (snd (Legacy.save_image_from_url E url output_dir w)) !! p
     = files (snd (save_image_from_url E url output_dir w)) !! p).
Proof.
  split.
  - intros other Hne. apply (legacy_save_other url output_dir other Hne).
  - intros p H Hind.
    destruct (save_image_from_url E url output_dir w) as [r w'] eqn:Hrun.
    simpl in H. subst r.
    destruct (save_ok_inv E _ _ _ _ _ Hrun)
      as (-> & _ & resp & img & data & present
          & Hget & Hst & Hopen & _ & Hsave & Hf & Hnew & Hpresent).
    assert (Hsave' : image_save E (files w) img (image_filepath E output_dir)
                     = Written data).
    { destruct Hind as [Hnone|Hind].
      - rewrite <- (Hnew Hnone). exact Hsave.
      - destruct Hpresent as [->|(old & ->)]; [exact Hsave|].
        rewrite <- Hsave. symmetry. apply Hind. }
    assert (Hlegacy : Legacy.save_image_from_url E url output_dir w
      = (Ok (image_filepath E output_dir),
         with_files (insert (image_filepath E output_dir) data)
           (emit (Fetched url) w))).
    { unfold Legacy.save_image_from_url.
      rewrite (bind_ok _ _ _ _ _ (get_ok E _ _ _ Hget)).
      rewrite (bind_ok _ _ _ _ _ (raise_for_status_ok _ _ Hst)).
      erewrite bind_ok; [|apply Image_open_ok, Hopen].
      erewrite bind_ok; [|apply save_written, Hsave'].
      reflexivity. }
    rewrite Hlegacy. simpl. split; [reflexivity|].
    rewrite Hf. apply lookup_insert_eq.
Qed.

Lemma legacy_save_trace url output_dir w :
  trace (snd (Legacy.save_image_from_url E url output_dir w))
  = (trace w ++ [Fetched url])%list.
Proof.
  unfold Legacy.save_image_from_url. unfold bind at 1, get.
  destruct (requests_get E url) as [resp|e]; [|reflexivity].
  assert (Hk : keeps trace
    (raise_for_status resp ;;;
     image <- Image_open E (content resp) ;;
     save E image (image_filepath E output_dir) ;;;
     ret (image_filepath E output_dir))).
  { pose proof (keeps_trace_save E).
    unfold raise_for_status, Image_open. keeps_auto. }
  rewrite Hk. reflexivity.
Qed.

(** X24.  The first version of [generate_image] makes at most one remote
    call and never sleeps; an error of the remote call reaches the
    caller as it was raised, unclassified and without a retry. *)
Theorem legacy_generate_image_single_call output_dir p w :
  length (runs_of (trace (snd (Legacy.generate_image E output_dir p w))))
  <= length (runs_of (trace w)) + 1 /\
  sleeps_of (trace (snd (Legacy.generate_image E output_dir p w)))
  = sleeps_of (trace w) /\
  (forall cleaned_prompt e,
     Legacy.validate_prompt p = Ok cleaned_prompt ->
     client_run E (count_runs (trace w)) cleaned_prompt = Raise e ->
     Legacy.generate_image E output_dir p w
     = (Raise e, emit (Ran cleaned_prompt) w)).
Proof.
  split; [|split].
  - unfold Legacy.generate_image. unfold bind at 1, lift.
    destruct (Legacy.validate_prompt p) as [c|e]; [|simpl; lia].
    unfold bind at 1, run.
    destruct (client_run E (count_runs (trace w)) c) as [output|e];
      [|simpl; rewrite runs_of_app, length_app; simpl; lia].
    unfold bind at 1. destruct output as [|url urls];
      [simpl; rewrite runs_of_app, length_app; simpl; lia|].
    cbn [first_item ret]. unfold bind at 1.
    pose proof (legacy_save_trace url output_dir (emit (Ran c) w)) as Ht.
    destruct (Legacy.save_image_from_url E url output_dir (emit (Ran c) w))
      as [[q|e] w']; simpl in Ht; simpl; rewrite Ht; simpl;
      rewrite !runs_of_app, !length_app; simpl; lia.
  - unfold Legacy.generate_image. unfold bind at 1, lift.
    destruct (Legacy.validate_prompt p) as [c|e]; [|reflexivity].
    unfold bind at 1, run.
    destruct (client_run E (count_runs (trace w)) c) as [output|e];
      [|simpl; rewrite sleeps_of_app; simpl; apply app_nil_r].
    unfold bind at 1. destruct output as [|url urls];
      [simpl; rewrite sleeps_of_app; simpl; apply app_nil_r|].
    cbn [first_item ret]. unfold bind at 1.
    pose proof (legacy_save_trace url output_dir (emit (Ran c) w)) as Ht.
    destruct (Legacy.save_image_from_url E url output_dir (emit (Ran c) w))
      as [[q|e] w']; simpl in Ht; simpl; rewrite Ht; simpl;
      rewrite !sleeps_of_app; simpl; rewrite !app_nil_r; reflexivity.
  - intros c e Hp Hrun. unfold Legacy.generate_image.
    erewrite bind_ok; [|unfold lift; rewrite Hp; reflexivity].
    erewrite bind_raise; [reflexivity|]. unfold run. rewrite Hrun.
    reflexivity.
Qed.

End LegacyVersions.

(** X23 at a URL that serves a PNG, over an existing destination. *)
Lemma legacy_save_agrees_on_success_witness :
  fst (Legacy.save_image_from_url (Sample.healthy Sample.png_bytes [])
         Sample.url Sample.dir Sample.occupied_world) = Ok Sample.path /\
  files (snd (Legacy.save_image_from_url (Sample.healthy Sample.png_bytes [])
                Sample.url Sample.dir Sample.occupied_world)) !! Sample.path
  = files (snd (save_image_from_url (Sample.healthy Sample.png_bytes [])
                  Sample.url Sample.dir Sample.occupied_world)) !! Sample.path.
Proof.
  apply (proj2 (legacy_save_agrees_on_success
                  (Sample.healthy Sample.png_bytes [])
                  Sample.url Sample.dir Sample.occupied_world) Sample.path).
  - reflexivity.
  - right. reflexivity.
Defined.

(* ================================================================== *)
(** * config.py and the command line *)

Section Configuration.

Import Config.

Variable os : os_env.
Variable made : list string.

(** [load_config] raises when the token is set neither in the
    environment nor in the [.env] file, and also when it is set to the
    empty string; [os.makedirs] has not been called then. *)
Lemma load_config_requires_token :
  load_dotenv os !! "REPLICATE_API_TOKEN" = None \/
  load_dotenv os !! "REPLICATE_API_TOKEN" = Some "" ->
  load_config os made = (Raise token_missing, made).
Proof.
  unfold load_config. intros [-> | ->]; reflexivity.
Qed.

(** X25.  A configuration [load_config] returns has a token that is not
    empty, taken from the environment when it is set there and from the
    [.env] file otherwise.  Its output directory is the value of
    [OUTPUT_DIR] in the environment when set there, else that of the
    [.env] file, else ["generated_images"], and it is not the empty
    string; [os.makedirs] has gone through once, for that directory.
    When the token is set and [OUTPUT_DIR] is set to the empty string,
    no configuration is returned: [load_config] raises the
    FileNotFoundError of [os.makedirs('')]. *)
Theorem load_config_returns cfg made' :
  (load_config os made = (Ok cfg, made') ->
   api_token cfg <> "" /\
   Some (api_token cfg)
   = match environ os !! "REPLICATE_API_TOKEN" with
     | Some token => Some token
     | None => dotenv_file os !! "REPLICATE_API_TOKEN"
     end /\
   output_dir cfg
   = match environ os !! "OUTPUT_DIR" with
     | Some d => d
     | None => default "generated_images" (dotenv_file os !! "OUTPUT_DIR")
     end /\
   output_dir cfg <> "" /\
   made' = (made ++ [output_dir cfg])%list /\
   makedirs_fault os (output_dir cfg) = None) /\
  (forall token,
     load_dotenv os !! "REPLICATE_API_TOKEN" = Some token -> token <> "" ->
     load_dotenv os !! "OUTPUT_DIR" = Some "" ->
     load_config os made = (Raise no_such_directory, made)).
Proof.
  split.
  - unfold load_config, load_dotenv.
    rewrite !lookup_union.
    destruct (environ os !! "REPLICATE_API_TOKEN") as [token|] eqn:Het;
      destruct (dotenv_file os !! "REPLICATE_API_TOKEN") as [token'|] eqn:Hdt;
      simpl; try discriminate.
    all: match goal with
         | |- context [match ?t with EmptyString => _ | String _ _ => _ end] =>
             destruct t as [|c t0] eqn:Htok; [discriminate|]
         end.
    all: destruct (environ os !! "OUTPUT_DIR") as [d|] eqn:Hed;
      destruct (dotenv_file os !! "OUTPUT_DIR") as [d'|] eqn:Hdd; simpl.
    all: unfold makedirs.
    all: match goal with
         | |- context [String.eqb ?dir ""] =>
             destruct (String.eqb_spec dir "") as [Hempty|Hdir];
             [discriminate|]
         end.
    all: match goal with
         | |- context [makedirs_fault os ?dir] =>
             destruct (makedirs_fault os dir) eqn:Hmk; [discriminate|]
         end.
    all: intros [= <- <-]; simpl; repeat split; try discriminate;
      solve [reflexivity | assumption].
  - intros token Htoken Hne Hdir. unfold load_config.
    rewrite Htoken, Hdir.
    destruct token as [|c t]; [contradiction|]. reflexivity.
Qed.

End Configuration.

(** X25 where the environment sets [OUTPUT_DIR] to ["out"] and the
    [.env] file offers a token and ["images"]: the token of the file is
    used, and ["out"] wins over ["images"]; and where the environment
    sets [OUTPUT_DIR] to the empty string: no configuration. *)
Lemma load_config_returns_witness :
  Config.load_config output_dir_set_twice []
  = (Ok (Config.mk_config "from_file" "out"), ["out"]) /\
  Config.output_dir (Config.mk_config "from_file" "out")
  = match Config.environ output_dir_set_twice !! "OUTPUT_DIR" with
    | Some d => d
    | None => default "generated_images"
                (Config.dotenv_file output_dir_set_twice !! "OUTPUT_DIR")
    end /\
  Config.load_config empty_output_dir [] = (Raise no_such_directory, []).
Proof.
  split; [reflexivity|]. split.
  - apply (proj1 (load_config_returns output_dir_set_twice []
                    (Config.mk_config "from_file" "out") ["out"])).
    reflexivity.
  - apply (proj2 (load_config_returns empty_output_dir []
                    (Config.mk_config "from_file" "out") ["out"])
             "from_file"); [reflexivity|discriminate|reflexivity].
Defined.

Section CommandLine.

Variable os : Config.os_env.
Variable E : env.

(** X26.  Once the configuration has loaded and a prompt has been read,
    [main] prints the success message with the path of the saved file,
    or ["Error: "] followed by the text of the error [generate_image]
    raised; nothing [generate_image] does makes it print
    ["Unexpected error occurred"]. *)
Theorem main_reports_outcome typed_prompt w made cfg made' :
  Config.load_config os made = (Ok cfg, made') ->
  (exists r,
     fst (generate_image E (mk_generator (Config.output_dir cfg) 3 1)
            (PyStr typed_prompt) w) = Ok (Some r) /\
     fst (fst (main os E (Ok typed_prompt) w made))
     = success_line (filepath r)) \/
  (exists e,
     fst (generate_image E (mk_generator (Config.output_dir cfg) 3 1)
            (PyStr typed_prompt) w) = Raise e /\
     fst (fst (main os E (Ok typed_prompt) w made))
     = "Error: " ++ exn_str e).
Proof.
  intros Hcfg. unfold main, ImageGenerator_init. rewrite Hcfg.
  set (generator := mk_generator (Config.output_dir cfg) 3 1).
  destruct (generate_image E generator (PyStr typed_prompt) w)
    as [[[r|]|e] w'] eqn:Hgen.
  - left. exists r. split; reflexivity.
  - exfalso.
    destruct (validate_prompt (PyStr typed_prompt)) as [c|e] eqn:Hp.
    + rewrite (generate_image_validated _ _ _ _ _ Hp) in Hgen.
      apply (attempts_loop_returns_record E generator c
               (range (max_retries generator + 1)) w).
      * apply range_has_last. simpl. lia.
      * rewrite Hgen. reflexivity.
    + unfold generate_image in Hgen. erewrite bind_raise in Hgen;
        [discriminate|unfold lift; rewrite Hp; reflexivity].
  - right. exists e. split; [reflexivity|]. simpl.
    assert (Hcls : exn_cls e = ValueError \/ exn_cls e = APIError).
    { destruct (validate_prompt (PyStr typed_prompt)) as [c|e0] eqn:Hp.
      - right. rewrite (generate_image_validated _ _ _ _ _ Hp) in Hgen.
        apply (attempts_loop_raises E generator c
                 (range (max_retries generator + 1)) w).
        rewrite Hgen. reflexivity.
      - left. unfold generate_image in Hgen. erewrite bind_raise in Hgen;
          [|unfold lift; rewrite Hp; reflexivity].
        injection Hgen as <- _.
        apply (validate_raises_value_error _ _ Hp). }
    destruct e as [cls text]. simpl in Hcls.
    destruct Hcls as [-> | ->]; reflexivity.
Qed.

(** X27.  Without a token, [main] prints the error of [load_config]
    after ["Error: "] and does nothing else: no directory is made, no
    remote call, no change to the world, whatever would have been typed. *)
Theorem main_without_token typed w made :
  Config.load_dotenv os !! "REPLICATE_API_TOKEN" = None \/
  Config.load_dotenv os !! "REPLICATE_API_TOKEN" = Some "" ->
  main os E typed w made
  = ("Error: REPLICATE_API_TOKEN must be set in environment variables",
     w, made).
Proof.
  intros Htoken. unfold main, ImageGenerator_init.
  rewrite (load_config_requires_token os made Htoken). reflexivity.
Qed.

End CommandLine.

(** X26 at the prompt ["   "]: the validation error is what is printed. *)
Lemma main_reports_outcome_witness :
  fst (fst (main token_only answers_url (Ok "   ") Sample.empty_world []))
  = "Error: Prompt cannot be empty or just whitespace".
Proof.
  destruct (main_reports_outcome token_only answers_url "   "
              Sample.empty_world []
              (Config.mk_config "test_token" "generated_images")
              ["generated_images"] eq_refl)
    as [(r & Hgen & _)|(e & Hgen & Hline)].
  - discriminate Hgen.
  - rewrite Hline. injection Hgen as <-. reflexivity.
Defined.

(** X27 with no token at all, and with a token set to the empty
    string. *)
Lemma main_without_token_witness :
  main no_token answers_url (Ok "test prompt") Sample.empty_world []
  = ("Error: REPLICATE_API_TOKEN must be set in environment variables",
     Sample.empty_world, []) /\
  main empty_token answers_url (Ok "test prompt") Sample.empty_world []
  = ("Error: REPLICATE_API_TOKEN must be set in environment variables",
     Sample.empty_world, []).
Proof.
  split.
  - apply (main_without_token no_token answers_url (Ok "test prompt")
             Sample.empty_world []).
    left. reflexivity.
  - apply (main_without_token empty_token answers_url (Ok "test prompt")
             Sample.empty_world []).
    right. reflexivity.
Defined.
